(** * A shallow embedding of the payment gateway [server.js]

    The gateway is an Express application: every route is a thin
    validation-and-relay wrapper around one or more calls to the payment
    provider's SDK.  The development models

    - JavaScript values and the coercions the handlers rely on
      (truthiness, [<], [*], [Math.round], property access);
    - the handlers as programs over two effects, provider calls and
      console output, with JavaScript exceptions and [try]/[catch];
    - the application as the ordered stack of layers that [server.js]
      registers, with the router's way of matching paths, the CORS
      middleware in front and the rate limiter placed on [/api/].

    Numbers are IEEE-754 binary64 values, as in the engine. *)

From Stdlib Require Import ZArith QArith Ascii String DecimalString List Bool Lia.
From Stdlib Require Import Floats.
From stdpp Require Import base option list gmap strings.

Set Warnings "-register-all,-inexact-float".
Close Scope Q_scope.
Open Scope string_scope.
Open Scope list_scope.
Open Scope Z_scope.

(* ================================================================== *)
(** * Numbers *)

Module Number.

(** ** Exact value of a binary64 *)

(** [m * 2^e] with sign [s], as a rational. *)
Definition SF2Q (x : spec_float) : option Q :=
  match x with
  | S754_zero _ => Some (Qmake 0 1)
  | S754_finite s m e =>
      let sm := if s then Z.neg m else Z.pos m in
      Some (if 0 <=? e then Qmake (sm * 2 ^ e) 1
            else Qmake sm (Z.to_pos (2 ^ (- e))))
  | _ => None
  end.

Definition to_Q (x : float) : option Q := SF2Q (Prim2SF x).

Definition is_finite (x : float) : bool :=
  match Prim2SF x with
  | S754_zero _ | S754_finite _ _ _ => true
  | _ => false
  end.

(** The integer a number denotes, when it denotes one. *)
Definition SF2Z (x : spec_float) : option Z :=
  match x with
  | S754_zero _ => Some 0
  | S754_finite s m e =>
      let sm := if s then Z.neg m else Z.pos m in
      if 0 <=? e then Some (sm * 2 ^ e)
      else if sm mod 2 ^ (- e) =? 0 then Some (sm / 2 ^ (- e)) else None
  | _ => None
  end.

Definition to_Z (x : float) : option Z := SF2Z (Prim2SF x).

(** ** Integers as numbers *)

(** The binary64 nearest to [p], ties to even: the conversion the engine
    applies whenever an integer becomes a Number. *)
Definition SF_of_pos (s : bool) (p : positive) : spec_float :=
  let d := Z.pos (Pos.size p) in
  if d <=? 53 then
    S754_finite s (Z.to_pos (Z.pos p * 2 ^ (53 - d))) (d - 53)
  else
    let k := d - 53 in
    let q := Z.pos p / 2 ^ k in
    let r := Z.pos p mod 2 ^ k in
    let h := 2 ^ (k - 1) in
    let q' := if (h <? r) || ((r =? h) && Z.odd q) then q + 1 else q in
    let '(m, e) := if q' =? 2 ^ 53 then (2 ^ 52, k + 1) else (q', k) in
    if e <=? 971 then S754_finite s (Z.to_pos m) e else S754_infinity s.

Definition SF_of_Z (n : Z) : spec_float :=
  match n with
  | Z0 => S754_zero false
  | Z.pos p => SF_of_pos false p
  | Z.neg p => SF_of_pos true p
  end.

Definition of_Z (n : Z) : float := SF2Prim (SF_of_Z n).

(** ** [Math.round] *)

(** ECMAScript: a non-finite or integral argument is returned as it is;
    otherwise the result is the integral Number closest to the argument,
    the one closer to +∞ on a tie; a result of zero keeps the argument's
    sign. *)
Definition round_half_up (s : bool) (m : positive) (e : Z) : Z :=
  let sm := if s then Z.neg m else Z.pos m in
  (2 * sm + 2 ^ (- e)) / 2 ^ (1 - e).

Definition Math_round (x : float) : float :=
  match Prim2SF x with
  | S754_finite s m e =>
      if 0 <=? e then x
      else
        let n := round_half_up s m e in
        if n =? 0 then (if s then (-0)%float else 0%float) else of_Z n
  | _ => x
  end.

(** ** Rounding half away from zero, on rationals *)

Definition round_half_away (q : Q) : Z :=
  let n := Qnum q in
  let d := Z.pos (Qden q) in
  Z.sgn n * ((2 * Z.abs n + d) / (2 * d)).

End Number.

(* ================================================================== *)
(** * JavaScript values *)

(** Request bodies, provider answers and response bodies are JSON-shaped
    values.  Strings are sequences of code units, one [ascii] each; an
    object is its list of own fields, the first binding of a key being the
    one a read sees. *)
Inductive JsValue : Type :=
| JUndefined
| JNull
| JBool (b : bool)
| JNum (n : float)
| JStr (s : string)
| JArr (items : list JsValue)
| JObj (fields : list (string * JsValue)).

(** A thrown [Error] object; the handlers only ever read its [message]. *)
Record JsError : Type := mkError { message : JsValue }.

(** Either a thrown error or a value. *)
Definition Completion (A : Type) : Type := (JsError + A)%type.

Inductive Access := Read | Destructure.

Inductive Key := Named (name : string) | Index (i : nat).

(** What the handlers use but [server.js] does not define: the engine's
    built-in conversions and messages, the process environment and the
    calendar. *)
Record Env : Type := mkEnv {
  (** ECMAScript [StringToNumber]. *)
  StringToNumber : string -> float;
  (** [ToNumber] on an array or object: [ToPrimitive] (which can throw),
      then [ToNumber] of the result. *)
  ObjectToNumber : JsValue -> Completion float;
  (** [ToString] on a number, and on an array or object: [ToPrimitive]
      (which can throw, as for an object whose own [toString] cannot be
      called), then [ToString] of the result. *)
  NumberToString : float -> string;
  ObjectToString : JsValue -> Completion string;
  (** The text of the [TypeError] raised when a property of [undefined] or
      [null] is read or destructured. *)
  TypeError_message : Access -> JsValue -> Key -> string;
  (** [process.env.NODE_ENV] and [process.env.STRIPE_WEBHOOK_SECRET]. *)
  NODE_ENV : JsValue;
  STRIPE_WEBHOOK_SECRET : JsValue;
  (** [new Date(ms).toISOString()]. *)
  toISOString : Z -> string;
  (** [decodeURIComponent], [None] where it throws a [URIError]. *)
  decodeURIComponent : string -> option string
}.

Definition lookup_field (k : string) (fields : list (string * JsValue)) : JsValue :=
  match List.find (fun kv => String.eqb (fst kv) k) fields with
  | Some kv => snd kv
  | None => JUndefined
  end.

Definition key_string (k : Key) : string :=
  match k with
  | Named s => s
  | Index i => NilEmpty.string_of_uint (Nat.to_uint i)
  end.

Definition nullish (v : JsValue) : bool :=
  match v with
  | JUndefined | JNull => true
  | _ => false
  end.

(** The value of [v.k] or [v[i]] for a [v] that is neither [undefined] nor
    [null]: a primitive has no fields of its own besides a string's
    [length] and code units, an array has its [length] and elements, an
    object its fields.  Inherited members are left out: none of the names
    [server.js] reads is one. *)
Definition prop_value (v : JsValue) (k : Key) : JsValue :=
  match v with
  | JUndefined | JNull | JBool _ | JNum _ => JUndefined
  | JStr s =>
      match k with
      | Named name =>
          if String.eqb name "length"
          then JNum (Number.of_Z (Z.of_nat (String.length s)))
          else JUndefined
      | Index i =>
          match String.get i s with
          | Some c => JStr (String c EmptyString)
          | None => JUndefined
          end
      end
  | JArr items =>
      match k with
      | Named name =>
          if String.eqb name "length"
          then JNum (Number.of_Z (Z.of_nat (List.length items)))
          else JUndefined
      | Index i => List.nth i items JUndefined
      end
  | JObj fields => lookup_field (key_string k) fields
  end.

(** [v.name] for a [v] that is neither [undefined] nor [null]. *)
Definition member (v : JsValue) (name : string) : JsValue := prop_value v (Named name).

(** A destructuring default applies to [undefined] only. *)
Definition or_default (v dflt : JsValue) : JsValue :=
  match v with
  | JUndefined => dflt
  | _ => v
  end.

Arguments or_default : simpl never.

Definition ToBoolean (v : JsValue) : bool :=
  match v with
  | JUndefined | JNull => false
  | JBool b => b
  | JNum n => negb ((n =? 0)%float || PrimFloat.is_nan n)
  | JStr s => negb (String.eqb s "")
  | JArr _ | JObj _ => true
  end.

Section Coercions.

Variable env : Env.

Definition ToNumber (v : JsValue) : Completion float :=
  match v with
  | JUndefined => inr nan
  | JNull => inr 0%float
  | JBool b => inr (if b then 1%float else 0%float)
  | JNum n => inr n
  | JStr s => inr (StringToNumber env s)
  | JArr _ | JObj _ => ObjectToNumber env v
  end.

Definition ToString (v : JsValue) : Completion string :=
  match v with
  | JStr s => inr s
  | JUndefined => inr "undefined"
  | JNull => inr "null"
  | JBool b => inr (if b then "true" else "false")
  | JNum n => inr (NumberToString env n)
  | JArr _ | JObj _ => ObjectToString env v
  end.

(** [v < n] for a Number [n] on the right: both operands become numbers
    and a comparison with [NaN] is false. *)
Definition lt_number (v : JsValue) (n : float) : Completion bool :=
  match ToNumber v with
  | inl e => inl e
  | inr a => inr (a <? n)%float
  end.

(** [v * n] for a Number [n] on the right. *)
Definition mul_number (v : JsValue) (n : float) : Completion float :=
  match ToNumber v with
  | inl e => inl e
  | inr a => inr (a * n)%float
  end.

(** [v === n] for a Number [n]. *)
Definition strict_equals_number (v : JsValue) (n : float) : bool :=
  match v with
  | JNum a => (a =? n)%float
  | _ => false
  end.

Definition TypeError (a : Access) (v : JsValue) (k : Key) : JsError :=
  mkError (JStr (TypeError_message env a v k)).

(** [v.k] and [v[i]]: reading from [undefined] or [null] throws; any
    other read gives [prop_value]. *)
Definition get_prop (a : Access) (v : JsValue) (k : Key) : Completion JsValue :=
  if nullish v then inl (TypeError a v k) else inr (prop_value v k).

End Coercions.

(* ================================================================== *)
(** * Effects *)

(** The provider SDK operations the gateway calls, each with the
    arguments [server.js] passes. *)
Inductive StripeCall : Type :=
| paymentIntents_create (params : JsValue)
| paymentMethods_attach (id params : JsValue)
| customers_update (id params : JsValue)
| customers_create (params : JsValue)
| customers_list (params : JsValue)
| subscriptions_create (params : JsValue)
| subscriptions_update (id params : JsValue)
| webhooks_constructEvent (payload header secret : JsValue).

Inductive Console : Type :=
| console_log (args : list JsValue)
| console_error (args : list JsValue).

(** A handler body: it returns, throws, calls the provider and continues
    with the provider's answer (a resolved value or a rejection), or writes
    to the console and continues. *)
Inductive Prog (A : Type) : Type :=
| Ret (a : A)
| Throw (e : JsError)
| Call (c : StripeCall) (k : Completion JsValue -> Prog A)
| Log (l : Console) (k : Prog A).

Arguments Ret {A} a.
Arguments Throw {A} e.
Arguments Call {A} c k.
Arguments Log {A} l k.

Fixpoint bind {A B : Type} (p : Prog A) (f : A -> Prog B) : Prog B :=
  match p with
  | Ret a => f a
  | Throw e => Throw e
  | Call c k => Call c (fun o => bind (k o) f)
  | Log l k => Log l (bind k f)
  end.

(** [try { p } catch (error) { h error }] *)
Fixpoint try_catch {A : Type} (p : Prog A) (h : JsError -> Prog A) : Prog A :=
  match p with
  | Ret a => Ret a
  | Throw e => h e
  | Call c k => Call c (fun o => try_catch (k o) h)
  | Log l k => Log l (try_catch k h)
  end.

Definition lift {A : Type} (c : Completion A) : Prog A :=
  match c with
  | inl e => Throw e
  | inr a => Ret a
  end.

(** [await stripe.x.y(...)]: a rejection is thrown at the [await]. *)
Definition await (c : StripeCall) : Prog JsValue := Call c lift.

Definition emit (l : Console) : Prog unit := Log l (Ret tt).

Declare Scope prog_scope.
Delimit Scope prog_scope with prog.
Notation "x <- p ;; q" := (bind p (fun x => q))
  (at level 100, p at next level, right associativity) : prog_scope.
Notation "p ;; q" := (bind p (fun _ => q))
  (at level 100, right associativity) : prog_scope.

(** ** Running a handler against a provider *)

(** The provider answers each call; its answer may depend on the calls
    made before. *)
Definition Stripe : Type := list StripeCall -> StripeCall -> Completion JsValue.

Record Run (A : Type) : Type := mkRun {
  calls : list StripeCall;
  console : list Console;
  result : Completion A
}.
Arguments mkRun {A} calls console result.
Arguments calls {A} r.
Arguments console {A} r.
Arguments result {A} r.

Fixpoint run {A : Type} (stripe : Stripe) (past : list StripeCall) (p : Prog A) : Run A :=
  match p with
  | Ret a => mkRun [] [] (inr a)
  | Throw e => mkRun [] [] (inl e)
  | Call c k =>
      let r := run stripe (past ++ [c]) (k (stripe past c)) in
      mkRun (c :: calls r) (console r) (result r)
  | Log l k =>
      let r := run stripe past k in
      mkRun (calls r) (l :: console r) (result r)
  end.

(* ================================================================== *)
(** * Requests and responses *)

Inductive Method := GET | HEAD | POST | PUT | PATCH | DELETE | OPTIONS.

(** An incoming request as the handlers see it.  [path] is the path of
    the request URL as it was sent, without the query string and before
    any decoding.  [body] is what the body parsers left in [req.body]: the
    raw payload on the webhook route, the parsed JSON elsewhere, which is
    an object or an array, [{}] when the request carries none.  [params]
    is what the router extracted from the path; [ip] and [time]
    (milliseconds) are the client address and the arrival time. *)
Record Request : Type := mkRequest {
  method : Method;
  path : string;
  ip : string;
  time : Z;
  headers : list (string * JsValue);
  params : list (string * JsValue);
  body : JsValue
}.

Inductive Body : Type :=
| json (v : JsValue)     (* res.json(v) *)
| send (v : JsValue)     (* res.send(v), res.sendStatus(code) *)
| no_body.               (* res.end() *)

(** [res_headers] lists the calls [res.header(name, value)] in order; for
    a preflight, which the CORS middleware answers, the headers that
    middleware sets. *)
Record Response : Type := mkResponse {
  status : Z;
  res_headers : list (string * JsValue);
  res_body : Body
}.

(** [res.status(code).json(v)]; [res.json(v)] is [res_json 200 v]. *)
Definition res_json (code : Z) (v : JsValue) : Response := mkResponse code [] (json v).

Definition res_send (code : Z) (v : JsValue) : Response := mkResponse code [] (send v).

Definition error_object (e : JsError) : JsValue := JObj [("message", message e)].

Definition cors_origins : JsValue :=
  JArr [JStr "http://localhost:3000"; JStr "http://localhost:8080";
        JStr "https://vibebeads.net"; JStr "https://www.vibebeads.net"].

(* ================================================================== *)
(** * The route handlers *)

Section Handlers.

Variable env : Env.

Local Open Scope prog_scope.

Definition origin (req : Request) : JsValue := lookup_field "origin" (headers req).

(** [const { name } = v] *)
Definition destructure (v : JsValue) (name : string) : Prog JsValue :=
  lift (get_prop env Destructure v (Named name)).

(** [const { name = dflt } = v] *)
Definition destructure_or (v : JsValue) (name : string) (dflt : JsValue) : Prog JsValue :=
  x <- destructure v name ;;
  Ret (or_default x dflt).

(** [v.name] *)
Definition dot (v : JsValue) (name : string) : Prog JsValue :=
  lift (get_prop env Read v (Named name)).

(** The body of every [catch (error)] block of the async handlers. *)
Definition server_error (log_text error_text : string) (error : JsError) : Prog Response :=
  emit (console_error [JStr log_text; error_object error]) ;;
  Ret (res_json 500 (JObj [("error", JStr error_text); ("message", message error)])).

(** The handler of [app.options('*', ...)].  No request reaches it: the
    CORS middleware, registered before it, ends every OPTIONS request. *)
Definition preflight (req : Request) : Prog Response :=
  Ret (mkResponse 200
         [("Access-Control-Allow-Origin", origin req);
          ("Access-Control-Allow-Methods", JStr "GET,PUT,POST,DELETE,OPTIONS");
          ("Access-Control-Allow-Headers",
            JStr "Content-Type, Authorization, Content-Length, X-Requested-With");
          ("Access-Control-Allow-Credentials", JBool true)]
         (send (JStr "OK"))).

(** [app.get('/health', ...)] *)
Definition health (req : Request) : Prog Response :=
  Ret (res_json 200
         (JObj [("status", JStr "healthy");
                ("timestamp", JStr (toISOString env (time req)));
                ("environment",
                  if ToBoolean (NODE_ENV env) then NODE_ENV env else JStr "development");
                ("cors_origins", cors_origins)])).

(** [app.get('/api/test-cors', ...)] *)
Definition test_cors (req : Request) : Prog Response :=
  Ret (res_json 200
         (JObj [("message", JStr "CORS is working!");
                ("origin", origin req);
                ("timestamp", JStr (toISOString env (time req)))])).

(** [app.post('/api/create-payment-intent', ...)] *)
Definition create_payment_intent (req : Request) : Prog Response :=
  try_catch
    (emit (console_log [JStr "Create payment intent request from origin:"; origin req]) ;;
     amount <- destructure (body req) "amount" ;;
     currency <- destructure_or (body req) "currency" (JStr "usd") ;;
     metadata <- destructure_or (body req) "metadata" (JObj []) ;;
     invalid <- (if negb (ToBoolean amount) then Ret true
                 else lift (lt_number env amount 0.5%float)) ;;
     if (invalid : bool) then
       Ret (res_json 400 (JObj [("error", JStr "Invalid amount. Minimum amount is $0.50")]))
     else
       product <- lift (mul_number env amount 100%float) ;;
       paymentIntent <- await (paymentIntents_create
         (JObj [("amount", JNum (Number.Math_round product));
                ("currency", currency);
                ("metadata", metadata);
                ("automatic_payment_methods", JObj [("enabled", JBool true)])])) ;;
       client_secret <- dot paymentIntent "client_secret" ;;
       id <- dot paymentIntent "id" ;;
       Ret (res_json 200 (JObj [("clientSecret", client_secret); ("paymentIntentId", id)])))
    (server_error "Payment intent creation failed:" "Failed to create payment intent").

(** The success response of create-subscription,
    [res.json({ subscriptionId: subscription.id, clientSecret:
    subscription.latest_invoice.payment_intent.client_secret })]. *)
Definition subscription_reply (subscription : JsValue) : Prog Response :=
  id <- dot subscription "id" ;;
  latest_invoice <- dot subscription "latest_invoice" ;;
  payment_intent <- dot latest_invoice "payment_intent" ;;
  client_secret <- dot payment_intent "client_secret" ;;
  Ret (res_json 200 (JObj [("subscriptionId", id); ("clientSecret", client_secret)])).

(** [app.post('/api/create-subscription', ...)] *)
Definition create_subscription (req : Request) : Prog Response :=
  try_catch
    (customerId <- destructure (body req) "customerId" ;;
     priceId <- destructure (body req) "priceId" ;;
     paymentMethodId <- destructure (body req) "paymentMethodId" ;;
     if negb (ToBoolean customerId) || negb (ToBoolean priceId) then
       Ret (res_json 400 (JObj [("error", JStr "Customer ID and Price ID are required")]))
     else
       (if ToBoolean paymentMethodId then
          await (paymentMethods_attach paymentMethodId
                   (JObj [("customer", customerId)])) ;;
          await (customers_update customerId
                   (JObj [("invoice_settings",
                           JObj [("default_payment_method", paymentMethodId)])])) ;;
          Ret tt
        else Ret tt) ;;
       subscription <- await (subscriptions_create
         (JObj [("customer", customerId);
                ("items", JArr [JObj [("price", priceId)]]);
                ("payment_behavior", JStr "default_incomplete");
                ("expand", JArr [JStr "latest_invoice.payment_intent"])])) ;;
       subscription_reply subscription)
    (server_error "Subscription creation failed:" "Failed to create subscription").

(** [app.post('/api/create-customer', ...)] *)
Definition create_customer (req : Request) : Prog Response :=
  try_catch
    (emit (console_log [JStr "Create customer request from origin:"; origin req]) ;;
     email <- destructure (body req) "email" ;;
     name <- destructure (body req) "name" ;;
     metadata <- destructure_or (body req) "metadata" (JObj []) ;;
     if negb (ToBoolean email) then
       Ret (res_json 400 (JObj [("error", JStr "Email is required")]))
     else
       customer <- await (customers_create
         (JObj [("email", email); ("name", name); ("metadata", metadata)])) ;;
       id <- dot customer "id" ;;
       email' <- dot customer "email" ;;
       name' <- dot customer "name" ;;
       Ret (res_json 200 (JObj [("customerId", id); ("email", email'); ("name", name')])))
    (server_error "Customer creation failed:" "Failed to create customer").

(** [app.get('/api/customer/:email', ...)] *)
Definition get_customer (req : Request) : Prog Response :=
  try_catch
    (emit (console_log [JStr "Get customer request from origin:"; origin req]) ;;
     email <- lift (get_prop env Destructure (JObj (params req)) (Named "email")) ;;
     customers <- await (customers_list
         (JObj [("email", email); ("limit", JNum 1%float)])) ;;
     data <- dot customers "data" ;;
     length <- dot data "length" ;;
     if strict_equals_number length 0%float then
       Ret (res_json 404 (JObj [("error", JStr "Customer not found")]))
     else
       data' <- dot customers "data" ;;
       customer <- lift (get_prop env Read data' (Index 0)) ;;
       id <- dot customer "id" ;;
       email' <- dot customer "email" ;;
       name <- dot customer "name" ;;
       created <- dot customer "created" ;;
       Ret (res_json 200 (JObj [("customerId", id); ("email", email');
                                ("name", name); ("created", created)])))
    (server_error "Customer retrieval failed:" "Failed to retrieve customer").

(** [app.post('/api/cancel-subscription', ...)] *)
Definition cancel_subscription (req : Request) : Prog Response :=
  try_catch
    (subscriptionId <- destructure (body req) "subscriptionId" ;;
     if negb (ToBoolean subscriptionId) then
       Ret (res_json 400 (JObj [("error", JStr "Subscription ID is required")]))
     else
       subscription <- await (subscriptions_update subscriptionId
         (JObj [("cancel_at_period_end", JBool true)])) ;;
       id <- dot subscription "id" ;;
       cancel_at_period_end <- dot subscription "cancel_at_period_end" ;;
       current_period_end <- dot subscription "current_period_end" ;;
       Ret (res_json 200 (JObj [("subscriptionId", id);
                                ("cancelAtPeriodEnd", cancel_at_period_end);
                                ("currentPeriodEnd", current_period_end)])))
    (server_error "Subscription cancellation failed:" "Failed to cancel subscription").

(** The [case] labels of the webhook's [switch], each with the text its
    branch logs before the event object's id. *)
Definition event_cases : list (string * string) :=
  [("payment_intent.succeeded", "Payment succeeded:");
   ("payment_intent.payment_failed", "Payment failed:");
   ("customer.subscription.created", "Subscription created:");
   ("customer.subscription.updated", "Subscription updated:");
   ("customer.subscription.deleted", "Subscription deleted:");
   ("invoice.payment_succeeded", "Invoice payment succeeded:");
   ("invoice.payment_failed", "Invoice payment failed:")].

(** Which [case] a [switch (type)] selects: [===] against each label. *)
Definition select_case (type : JsValue) : option string :=
  match type with
  | JStr s =>
      match List.find (fun c => String.eqb (fst c) s) event_cases with
      | Some c => Some (snd c)
      | None => None
      end
  | _ => None
  end.

(** [switch (event.type) { ... }]; the template literal of the
    [default] branch converts the type to a string, which can throw. *)
Definition dispatch_event (event : JsValue) : Prog unit :=
  type <- dot event "type" ;;
  match select_case type with
  | Some text =>
      data <- dot event "data" ;;
      object <- dot data "object" ;;
      id <- dot object "id" ;;
      emit (console_log [JStr text; id])
  | None =>
      type' <- dot event "type" ;;
      text <- lift (ToString env type') ;;
      emit (console_log [JStr ("Unhandled event type " ++ text)])
  end.

(** [app.post('/api/webhooks/stripe', ...)]; only the call to
    [constructEvent] is inside the [try].  The template literal of the
    [catch] block converts the error's message to a string. *)
Definition webhooks_stripe (req : Request) : Prog Response :=
  let sig := lookup_field "stripe-signature" (headers req) in
  verified <- try_catch
    (event <- await (webhooks_constructEvent (body req) sig (STRIPE_WEBHOOK_SECRET env)) ;;
     Ret (inr event))
    (fun err =>
       emit (console_error [JStr "Webhook signature verification failed:"; message err]) ;;
       text <- lift (ToString env (message err)) ;;
       Ret (inl (res_send 400 (JStr ("Webhook Error: " ++ text))))) ;;
  match verified with
  | inl response => Ret response
  | inr event =>
      dispatch_event event ;;
      Ret (res_json 200 (JObj [("received", JBool true)]))
  end.

(** The error-handling middleware [(error, req, res, next) => ...]. *)
Definition error_middleware (error : JsError) : Prog Response :=
  emit (console_error [JStr "Unhandled error:"; error_object error]) ;;
  Ret (res_json 500
         (JObj [("error", JStr "Internal server error");
                ("message",
                  match NODE_ENV env with
                  | JStr s => if String.eqb s "development" then message error
                              else JStr "Something went wrong"
                  | _ => JStr "Something went wrong"
                  end)])).

(** [app.use('*', ...)], the last layer. *)
Definition not_found (req : Request) : Prog Response :=
  Ret (res_json 404 (JObj [("error", JStr "Route not found")])).

End Handlers.

(* ================================================================== *)
(** * The rate limiter *)

Module RateLimit.

(** The options [server.js] passes to [rateLimit]. *)
Definition windowMs : Z := 15 * 60 * 1000.
Definition max : Z := 100.
Definition message : string := "Too many requests from this IP, please try again later.".

(** One client's counter: the requests counted in its current window and
    the time at which that window ends. *)
Record Window : Type := mkWindow { hits : Z; resetTime : Z }.

(** The window a request arriving at [now] is counted in: the client's
    current one while it lasts, a new one starting at [now] otherwise. *)
Definition current (st : gmap string Window) (client : string) (now : Z) : Window :=
  match st !! client with
  | Some w => if now <? resetTime w then w else mkWindow 0 (now + windowMs)
  | None => mkWindow 0 (now + windowMs)
  end.

Definition rejection : Response := res_send 429 (JStr message).

(** Modelled from the spec: the middleware that [rateLimit({windowMs, max,
    message})] returns; its implementation is the rate-limiting package's
    and no part of [server.js].  Per client address it counts the
    requests of the current window; the request is passed on while the
    count, this request included, is at most [max], and is answered with
    the fixed text and a 429 status otherwise; the counter starts again
    once the window is over. *)
Definition limiter (st : gmap string Window) (client : string) (now : Z)
  : gmap string Window * option Response :=
  let w := current st client now in
  let w' := mkWindow (hits w + 1) (resetTime w) in
  (<[client := w']> st, if hits w' <=? max then None else Some rejection).

End RateLimit.

(* ================================================================== *)
(** * The CORS middleware *)

Module Cors.

(** The [origin] option [server.js] passes to [cors]. *)
Definition allowed_origins : list string :=
  ["http://localhost:3000"; "http://localhost:8080";
   "https://vibebeads.net"; "https://www.vibebeads.net"].

(** The request's [Origin] is a string on the allow-list. *)
Definition allowed (origin : JsValue) : bool :=
  match origin with
  | JStr s => List.existsb (String.eqb s) allowed_origins
  | _ => false
  end.

(** Modelled from the spec: the answer to an OPTIONS request of the
    middleware that [cors({origin, credentials, methods, allowedHeaders,
    optionsSuccessStatus})] returns; its implementation is the CORS
    package's and no part of [server.js].  The middleware ends every
    OPTIONS request itself, with the status [optionsSuccessStatus] and no
    body.  Only an [Origin] on the allow-list is given back in
    [Access-Control-Allow-Origin]; the credentials flag, the methods and
    the headers are the configured ones, the lists joined by commas. *)
Definition preflight (origin : JsValue) : Response :=
  mkResponse 200
    ((if allowed origin then [("Access-Control-Allow-Origin", origin)] else []) ++
     [("Vary", JStr "Origin");
      ("Access-Control-Allow-Credentials", JStr "true");
      ("Access-Control-Allow-Methods", JStr "GET,POST,PUT,DELETE,OPTIONS");
      ("Access-Control-Allow-Headers", JStr "Content-Type,Authorization,X-Requested-With");
      ("Content-Length", JStr "0")])
    no_body.

End Cors.

(* ================================================================== *)
(** * The application *)

(** ** How the router matches a path *)

(** The router compares paths without regard to the case of letters. *)
Definition lower_ascii (c : ascii) : ascii :=
  let n := N_of_ascii c in
  if ((65 <=? n) && (n <=? 90))%N then ascii_of_N (n + 32) else c.

Fixpoint lower (s : string) : string :=
  match s with
  | EmptyString => EmptyString
  | String c s' => String (lower_ascii c) (lower s')
  end.

Fixpoint strip_prefix (pre s : string) : option string :=
  match pre with
  | EmptyString => Some s
  | String a pre' =>
      match s with
      | EmptyString => None
      | String b s' => if Ascii.eqb a b then strip_prefix pre' s' else None
      end
  end.

(** [strip_prefix] for a prefix [pre] in lower case, whatever the case of
    the letters of [s]; what follows the prefix is returned as it is. *)
Fixpoint strip_prefix_ci (pre s : string) : option string :=
  match pre with
  | EmptyString => Some s
  | String a pre' =>
      match s with
      | EmptyString => None
      | String b s' => if Ascii.eqb a (lower_ascii b) then strip_prefix_ci pre' s' else None
      end
  end.

Fixpoint has_slash (s : string) : bool :=
  match s with
  | EmptyString => false
  | String c s' => Ascii.eqb c "/"%char || has_slash s'
  end.

(** [s] without its last character when that is a slash. *)
Fixpoint drop_slash (s : string) : string :=
  match s with
  | EmptyString => EmptyString
  | String c s' =>
      if Ascii.eqb c "/"%char && String.eqb s' "" then EmptyString
      else String c (drop_slash s')
  end.

(** A request path against the fixed path of a route, which
    [server.js] writes in lower case: the case of letters is ignored and
    one trailing slash is allowed. *)
Definition matches (pattern p : string) : bool :=
  String.eqb (lower p) pattern || String.eqb (lower p) (pattern ++ "/").

(** [app.use('/api/', ...)]: the path is [/api] or continues below it,
    in any letter case. *)
Definition under_api (p : string) : bool :=
  String.eqb (lower p) "/api" ||
  match strip_prefix "/api/" (lower p) with Some _ => true | None => false end.

(** The [:email] segment of a path that matches [/api/customer/:email],
    as it stands in the path: what follows the fixed part, one trailing
    slash aside, when it is not empty and holds no slash. *)
Definition customer_segment (p : string) : option string :=
  match strip_prefix_ci "/api/customer/" p with
  | Some rest =>
      let segment := drop_slash rest in
      if String.eqb segment "" || has_slash segment then None else Some segment
  | None => None
  end.

(** [app.get] routes also answer [HEAD]. *)
Definition is_get (m : Method) : bool :=
  match m with GET | HEAD => true | _ => false end.

Definition is_post (m : Method) : bool :=
  match m with POST => true | _ => false end.

Definition is_options (m : Method) : bool :=
  match m with OPTIONS => true | _ => false end.

Section App.

Variable env : Env.

Local Open Scope prog_scope.

(** What the router does with a part of the path that a layer captures:
    an empty part stays, any other is percent-decoded, and a part that
    cannot be decoded is an error of the router's. *)
Definition decode_param (val : string) : Completion string :=
  if String.eqb val "" then inr val
  else
    match decodeURIComponent env val with
    | Some decoded => inr decoded
    | None => inl (mkError (JStr ("Failed to decode param '" ++ val ++ "'")))
    end.

(** [app.use(cors({...}))]: the middleware ends an OPTIONS request and
    hands any other request on. *)
Definition cors (req : Request) : option Response :=
  if is_options (method req) then Some (Cors.preflight (origin req)) else None.

(** The routes in the order [server.js] registers them, then the final
    [app.use('*')].  A route is matched on the path first and on the
    method after: the [:email] segment is decoded as soon as the path
    matches [/api/customer/:email], and a segment that cannot be decoded
    is an error whatever the method. *)
Definition route (req : Request) : Prog Response :=
  let m := method req in
  let p := path req in
  let last_routes :=
    if is_post m && matches "/api/cancel-subscription" p then cancel_subscription env req
    else if is_post m && matches "/api/webhooks/stripe" p then webhooks_stripe env req
    else not_found req in
  if is_get m && matches "/health" p then health env req
  else if is_get m && matches "/api/test-cors" p then test_cors env req
  else if is_post m && matches "/api/create-payment-intent" p then
    create_payment_intent env req
  else if is_post m && matches "/api/create-subscription" p then
    create_subscription env req
  else if is_post m && matches "/api/create-customer" p then
    create_customer env req
  else
    match customer_segment p with
    | Some segment =>
        email <- lift (decode_param segment) ;;
        if is_get m then
          get_customer env
            (mkRequest m p (ip req) (time req) (headers req)
               [("email", JStr email)] (body req))
        else last_routes
    | None => last_routes
    end.

(** One request through the layers of [server.js], in registration
    order.  The CORS middleware ends every preflight.  The layer of
    [app.options('*')] is then matched against the path of any request,
    which decodes the path; its handler takes OPTIONS requests, none of
    which gets this far.  Then come the limiter on [/api/] and the
    routes.  An error of the router's or one thrown by a route handler
    reaches the error middleware, and the layers before that which are no
    error handlers (the limiter, the routes) are passed over.  The layers
    that only decorate ([helmet], the body parsers, [cors] on a request
    that is no preflight) leave no trace here: [body] already holds
    what the parsers produce. *)
Definition app (st : gmap string RateLimit.Window) (req : Request)
  : gmap string RateLimit.Window * Prog Response :=
  match cors req with
  | Some answered => (st, Ret answered)
  | None =>
      match decode_param (path req) with
      | inl error => (st, error_middleware env error)
      | inr _ =>
          if is_options (method req) then (st, preflight req)
          else
            let '(st', verdict) :=
              if under_api (path req) then RateLimit.limiter st (ip req) (time req)
              else (st, None) in
            match verdict with
            | Some rejected => (st', Ret rejected)
            | None => (st', try_catch (route req) (error_middleware env))
            end
      end
  end.


End App.

Import Number.

(* ================================================================== *)
(** * Notions the statements use *)

(** ** Numbers *)

(** A mantissa with its sign. *)
Definition signed (s : bool) (m : positive) : Z := if s then Z.neg m else Z.pos m.

(** The floor of [q + 1/2]: rounding to the nearest integer, halves up. *)
Definition floor_half (q : Q) : Z :=
  (2 * Qnum q + Z.pos (Qden q)) / (2 * Z.pos (Qden q)).

(** A number that is positive: finite and above zero, or +∞. *)
Definition SFpositive (x : spec_float) : Prop :=
  match x with
  | S754_finite false _ _ | S754_infinity false => True
  | _ => False
  end.

(** ** Observing a run *)

(** The [amount] field of a create-payment-intent call. *)
Definition amount_sent (c : StripeCall) : JsValue :=
  match c with
  | paymentIntents_create params => member params "amount"
  | _ => JUndefined
  end.

(** C1 read to the letter, for a request whose amount is the number [a]:
    one provider call is made and its [amount] field is an integer, the
    exact product of [a] and 100 rounded half away from zero. *)
Definition minor_units_claim (env : Env) (stripe : Stripe) (req : Request) (a : float)
  : Prop :=
  exists x q,
    List.map amount_sent (calls (run stripe [] (create_payment_intent env req))) = [JNum x]
    /\ to_Q a = Some q
    /\ to_Z x = Some (round_half_away (Qmult q (Qmake 100 1))).

(** Every provider call a program can make satisfies [P], whatever the
    provider answers. *)
Fixpoint all_calls {A : Type} (P : StripeCall -> Prop) (p : Prog A) : Prop :=
  match p with
  | Ret _ | Throw _ => True
  | Call c k => P c /\ forall o, all_calls P (k o)
  | Log _ k => all_calls P k
  end.

(** An update of a subscription that only schedules its cancellation for
    the end of the period. *)
Definition at_period_end (c : StripeCall) : Prop :=
  match c with
  | subscriptions_update _ params => params = JObj [("cancel_at_period_end", JBool true)]
  | _ => True
  end.

(** An event the webhook's [switch] can read what it needs from: a value,
    neither [undefined] nor [null], which carries a [data.object] that is
    neither when its [type] is one of the seven [case] labels, as the
    provider's events do. *)
Definition dispatchable (event : JsValue) : bool :=
  negb (nullish event) &&
  match select_case (member event "type") with
  | Some _ => negb (nullish (member (member event "data") "object"))
  | None => true
  end.

(** An event the webhook's [switch] can process: one it can read, whose
    [type], when it is none of the seven, can be turned into a string (as
    a string can, and any type the provider sends). *)
Definition processable (env : Env) (event : JsValue) : bool :=
  dispatchable event &&
  match select_case (member event "type") with
  | Some _ => true
  | None =>
      match ToString env (member event "type") with
      | inr _ => true
      | inl _ => false
      end
  end.

(** The string a conversion gave, empty where it threw. *)
Definition string_of (c : Completion string) : string :=
  match c with
  | inr s => s
  | inl _ => ""
  end.

(** ** The limiter *)

(** The router can decode the path. *)
Definition decodable (env : Env) (p : string) : bool :=
  match decode_param env p with
  | inr _ => true
  | inl _ => false
  end.




(** ** create-subscription *)

(** The three provider calls of create-subscription, as [server.js]
    builds them from the request fields. *)
Definition attach_call (customerId paymentMethodId : JsValue) : StripeCall :=
  paymentMethods_attach paymentMethodId (JObj [("customer", customerId)]).

Definition set_default_call (customerId paymentMethodId : JsValue) : StripeCall :=
  customers_update customerId
    (JObj [("invoice_settings", JObj [("default_payment_method", paymentMethodId)])]).

Definition subscribe_call (customerId priceId : JsValue) : StripeCall :=
  subscriptions_create
    (JObj [("customer", customerId);
           ("items", JArr [JObj [("price", priceId)]]);
           ("payment_behavior", JStr "default_incomplete");
           ("expand", JArr [JStr "latest_invoice.payment_intent"])]).

Definition subscription_failed (e : JsError) : Response :=
  res_json 500 (JObj [("error", JStr "Failed to create subscription");
                      ("message", message e)]).

Definition subscription_created (reply : JsValue * JsValue) : Response :=
  res_json 200 (JObj [("subscriptionId", fst reply); ("clientSecret", snd reply)]).

Definition failure_log (e : JsError) : Console :=
  console_error [JStr "Subscription creation failed:"; error_object e].

(** [subscription.latest_invoice.payment_intent], [undefined] where a step
    of the path has nothing to read from. *)
Definition embedded_payment_intent (subscription : JsValue) : JsValue :=
  member (member subscription "latest_invoice") "payment_intent".

(** The reads behind the success response of create-subscription:
    [subscription.id] and
    [subscription.latest_invoice.payment_intent.client_secret]. *)
Definition read_client_secret (env : Env) (subscription : JsValue)
  : Completion (JsValue * JsValue) :=
  match get_prop env Read subscription (Named "id") with
  | inl e => inl e
  | inr id =>
      match get_prop env Read subscription (Named "latest_invoice") with
      | inl e => inl e
      | inr latest_invoice =>
          match get_prop env Read latest_invoice (Named "payment_intent") with
          | inl e => inl e
          | inr payment_intent =>
              match get_prop env Read payment_intent (Named "client_secret") with
              | inl e => inl e
              | inr client_secret => inr (id, client_secret)
              end
          end
      end
  end.

(** The run of create-subscription written out by cases, for a body whose
    three fields were read as [customerId], [priceId] and
    [paymentMethodId]. *)
Definition subscribe_outcome (env : Env) (stripe : Stripe) (past pre : list StripeCall)
    (create : StripeCall) : Run Response :=
  match stripe (past ++ pre) create with
  | inl e => mkRun (pre ++ [create]) [failure_log e] (inr (subscription_failed e))
  | inr subscription =>
      match read_client_secret env subscription with
      | inl e => mkRun (pre ++ [create]) [failure_log e] (inr (subscription_failed e))
      | inr reply => mkRun (pre ++ [create]) [] (inr (subscription_created reply))
      end
  end.

Definition create_subscription_outcome (env : Env) (stripe : Stripe) (past : list StripeCall)
    (customerId priceId paymentMethodId : JsValue) : Run Response :=
  if negb (ToBoolean customerId) || negb (ToBoolean priceId) then
    mkRun [] [] (inr (res_json 400
                        (JObj [("error", JStr "Customer ID and Price ID are required")])))
  else
    let attach := attach_call customerId paymentMethodId in
    let update := set_default_call customerId paymentMethodId in
    let create := subscribe_call customerId priceId in
    if ToBoolean paymentMethodId then
      match stripe past attach with
      | inl e => mkRun [attach] [failure_log e] (inr (subscription_failed e))
      | inr _ =>
          match stripe (past ++ [attach]) update with
          | inl e => mkRun [attach; update] [failure_log e] (inr (subscription_failed e))
          | inr _ => subscribe_outcome env stripe past [attach; update] create
          end
      end
    else subscribe_outcome env stripe past [] create.

(** What the theorem on a missing payment intent says of a run. *)
Definition handles_missing_intent (env : Env) (stripe : Stripe) (past : list StripeCall)
    (r : Run Response) : Prop :=
  (exists response, result r = inr response) /\
  (forall pre params subscription,
     calls r = pre ++ [subscriptions_create params] ->
     stripe (past ++ pre) (subscriptions_create params) = inr subscription ->
     nullish (embedded_payment_intent subscription) = true ->
     exists e, result r = inr (subscription_failed e)) /\
  (forall response,
     result r = inr response -> status response = 200 ->
     exists pre params subscription reply,
       calls r = pre ++ [subscriptions_create params] /\
       stripe (past ++ pre) (subscriptions_create params) = inr subscription /\
       read_client_secret env subscription = inr reply /\
       response = subscription_created reply).

(** ** How a program can end *)

(** Every response a program can return satisfies [P], whatever the
    provider answers; the program may also throw. *)
Fixpoint all_results {A : Type} (P : A -> Prop) (p : Prog A) : Prop :=
  match p with
  | Ret a => P a
  | Throw _ => True
  | Call _ k => forall o, all_results P (k o)
  | Log _ k => all_results P k
  end.

(** The program never throws and every response it can return satisfies
    [P], whatever the provider answers. *)
Fixpoint always_returns {A : Type} (P : A -> Prop) (p : Prog A) : Prop :=
  match p with
  | Ret a => P a
  | Throw _ => False
  | Call _ k => forall o, always_returns P (k o)
  | Log _ k => always_returns P k
  end.

(** The program makes at most [n] provider calls, whatever the provider
    answers. *)
Fixpoint at_most_calls {A : Type} (n : nat) (p : Prog A) : Prop :=
  match p with
  | Ret _ | Throw _ => True
  | Call _ k =>
      match n with
      | O => False
      | S n' => forall o, at_most_calls n' (k o)
      end
  | Log _ k => at_most_calls n k
  end.

(** ** Answers *)

(** A response whose body is a JSON object with an [error] text first. *)
Definition error_body (response : Response) : Prop :=
  exists text rest, res_body response = json (JObj (("error", JStr text) :: rest)).

(** A status among [codes], and an [error] text unless it is 200. *)
Definition shaped (codes : list Z) (response : Response) : Prop :=
  In (status response) codes /\ (status response <> 200 -> error_body response).

(** The run ends with a response, of that shape. *)
Definition answers_with (codes : list Z) (r : Run Response) : Prop :=
  exists response, result r = inr response /\ shaped codes response.

(** [res.status(code).json({ error: text })] *)
Definition error_answer (code : Z) (text : string) : Response :=
  res_json code (JObj [("error", JStr text)]).

(** The 500 answer of a [catch] block: [{ error: text, message: error.message }]. *)
Definition failure_answer (text : string) (error : JsError) : Response :=
  res_json 500 (JObj [("error", JStr text); ("message", message error)]).

(** The async handlers, each with the two texts of its [catch] block: the
    one written to the console before the error and the [error] field of
    the 500 answer. *)
Definition async_handlers (env : Env)
  : list ((Request -> Prog Response) * (string * string)) :=
  [(create_payment_intent env,
     ("Payment intent creation failed:", "Failed to create payment intent"));
   (create_subscription env,
     ("Subscription creation failed:", "Failed to create subscription"));
   (create_customer env,
     ("Customer creation failed:", "Failed to create customer"));
   (get_customer env,
     ("Customer retrieval failed:", "Failed to retrieve customer"));
   (cancel_subscription env,
     ("Subscription cancellation failed:", "Failed to cancel subscription"))].

(** A handler relays a provider failure: when a call of the run was
    rejected with [e], no call follows it, the run ends with the 500
    answer that carries [text] and [e]'s message, and the last line on
    the console is the error. *)
Definition relays_failure (stripe : Stripe) (past : list StripeCall)
    (log_text text : string) (r : Run Response) : Prop :=
  forall pre c rest e,
    calls r = pre ++ c :: rest ->
    stripe (past ++ pre) c = inl e ->
    rest = [] /\
    result r = inr (failure_answer text e) /\
    exists lines, console r = lines ++ [console_error [JStr log_text; error_object e]].

(** ** Routes *)

(** The paths of the [app.post] routes that call the provider. *)
Definition post_routes : list string :=
  ["/api/create-payment-intent"; "/api/create-subscription"; "/api/create-customer";
   "/api/cancel-subscription"; "/api/webhooks/stripe"].

(** A request for one of the six routes whose handlers call the provider. *)
Definition provider_route (req : Request) : bool :=
  (is_post (method req) &&
   List.existsb (fun pattern => matches pattern (path req)) post_routes) ||
  (is_get (method req) &&
   match customer_segment (path req) with Some _ => true | None => false end).


(** The answer of [/health] to a request arriving at [now]. *)
Definition health_answer (env : Env) (now : Z) : Response :=
  res_json 200
    (JObj [("status", JStr "healthy");
           ("timestamp", JStr (toISOString env now));
           ("environment",
             if ToBoolean (NODE_ENV env) then NODE_ENV env else JStr "development");
           ("cors_origins", cors_origins)]).

(** ** The error middleware *)

(** [process.env.NODE_ENV === 'development' ? error.message : 'Something went wrong'] *)
Definition shown_message (env : Env) (error : JsError) : JsValue :=
  match NODE_ENV env with
  | JStr s => if String.eqb s "development" then message error else JStr "Something went wrong"
  | _ => JStr "Something went wrong"
  end.



(** ** What the provider is asked *)

(** The shape of a provider call made while [req] is handled. *)
Definition provider_call_shape (env : Env) (req : Request) (c : StripeCall) : Prop :=
  match c with
  | paymentIntents_create params =>
      (exists product, member params "amount" = JNum (Math_round product)) /\
      member params "automatic_payment_methods" = JObj [("enabled", JBool true)]
  | subscriptions_create params =>
      member params "payment_behavior" = JStr "default_incomplete" /\
      member params "expand" = JArr [JStr "latest_invoice.payment_intent"]
  | customers_list params => member params "limit" = JNum 1%float
  | webhooks_constructEvent payload header secret =>
      payload = body req /\
      header = lookup_field "stripe-signature" (headers req) /\
      secret = STRIPE_WEBHOOK_SECRET env
  | _ => True
  end.

(* ================================================================== *)
(** * Concrete environments, providers and requests *)

Module Examples.

Definition hex_digit (c : ascii) : option N :=
  let n := N_of_ascii c in
  if ((48 <=? n) && (n <=? 57))%N then Some (n - 48)%N
  else if ((65 <=? n) && (n <=? 70))%N then Some (n - 55)%N
  else if ((97 <=? n) && (n <=? 102))%N then Some (n - 87)%N
  else None.

(** Percent-decoding for escapes of ASCII characters; any other escape is
    taken to fail, as a broken one does. *)
Fixpoint decode_ascii (s : string) : option string :=
  match s with
  | EmptyString => Some EmptyString
  | String c rest =>
      if Ascii.eqb c "%"%char then
        match rest with
        | String a (String b rest') =>
            match hex_digit a, hex_digit b with
            | Some h, Some l =>
                if (h <? 8)%N then
                  option_map (String (ascii_of_N (16 * h + l))) (decode_ascii rest')
                else None
            | _, _ => None
            end
        | _ => None
        end
      else option_map (String c) (decode_ascii rest)
  end.

(** [ToString] of a JSON object: one with a [toString] field of its own,
    which is no function, cannot be converted. *)
Definition object_to_string (v : JsValue) : Completion string :=
  match v with
  | JObj fields =>
      match lookup_field "toString" fields with
      | JUndefined => inr "[object Object]"
      | _ => inl (mkError (JStr "Cannot convert object to primitive value"))
      end
  | _ => inr ""
  end.

Definition env0 : Env :=
  mkEnv (fun _ => nan) (fun _ => inr nan) (fun _ => "NaN")
        object_to_string
        (fun _ _ _ => "Cannot read properties of undefined")
        JUndefined (JStr "whsec_test") (fun _ => "2025-01-01T00:00:00.000Z")
        decode_ascii.

Definition stripe_down : Stripe := fun _ _ => inl (mkError (JStr "connection refused")).

Definition post (p : string) (b : JsValue) : Request :=
  mkRequest POST p "203.0.113.7" 0 [] [] b.

Definition client : string := "203.0.113.7".



(** A provider that verifies the signature ["t=1,v1=good"] only and
    answers every other call with a well-formed object. *)
Definition stripe_test : Stripe := fun _ c =>
  match c with
  | paymentIntents_create _ =>
      inr (JObj [("id", JStr "pi_1"); ("client_secret", JStr "pi_1_secret")])
  | customers_create params =>
      inr (JObj [("id", JStr "cus_1"); ("email", member params "email");
                 ("name", member params "name")])
  | customers_list _ =>
      inr (JObj [("data", JArr [JObj [("id", JStr "cus_1"); ("email", JStr "ada@example.com");
                                      ("name", JStr "Ada"); ("created", JNum 1700000000%float)]])])
  | subscriptions_create _ =>
      inr (JObj [("id", JStr "sub_1");
                 ("latest_invoice",
                   JObj [("payment_intent", JObj [("client_secret", JStr "pi_2_secret")])])])
  | subscriptions_update id _ =>
      inr (JObj [("id", id); ("cancel_at_period_end", JBool true);
                 ("current_period_end", JNum 1700000000%float)])
  | webhooks_constructEvent payload (JStr "t=1,v1=good") _ => inr payload
  | webhooks_constructEvent _ _ _ =>
      inl (mkError (JStr "No signatures found matching the expected signature for payload"))
  | _ => inr (JObj [])
  end.

Definition webhook (signature : JsValue) (event : JsValue) : Request :=
  mkRequest POST "/api/webhooks/stripe" "198.51.100.1" 0
    [("stripe-signature", signature)] [] event.

Definition answer (req : Request) : Completion Response :=
  result (run stripe_test [] (snd (app env0 ∅ req))).

(** A provider whose subscriptions come back without an invoice. *)
Definition stripe_no_invoice : Stripe := fun _ c =>
  match c with
  | subscriptions_create _ => inr (JObj [("id", JStr "sub_1"); ("latest_invoice", JNull)])
  | _ => inr (JObj [])
  end.

Definition subscribe : Request :=
  post "/api/create-subscription"
    (JObj [("customerId", JStr "cus_1"); ("priceId", JStr "price_1")]).

Definition succeeded : JsValue :=
  JObj [("type", JStr "payment_intent.succeeded");
        ("data", JObj [("object", JObj [("id", JStr "pi_1")])])].

End Examples.

(* ================================================================== *)
(** * Numbers: facts *)

Example round_61_5 : Math_round (0.5 + 61)%float = 62%float.
Proof. vm_compute. reflexivity. Qed.

Example round_minus_2_5 : Math_round (-2.5)%float = (-2)%float.
Proof. vm_compute. reflexivity. Qed.

(** The largest double below one half rounds down, although adding one
    half to it in double precision gives one. *)
Example round_below_half : Math_round 0x1.fffffffffffffp-2%float = 0%float.
Proof. vm_compute. reflexivity. Qed.

Example of_Z_ties_to_even :
  Prim2SF (of_Z 9007199254740993) = binary_normalize prec emax 9007199254740993 0 false.
Proof. vm_compute. reflexivity. Qed.

Lemma size_log2 (p : positive) : Z.pos (Pos.size p) = Z.log2 (Z.pos p) + 1.
Proof. destruct p; simpl; lia. Qed.

Lemma digits2_size (p : positive) : digits2_pos p = Pos.size p.
Proof. induction p; simpl; congruence. Qed.

Lemma size_bounds (p : positive) :
  2 ^ (Z.pos (Pos.size p) - 1) <= Z.pos p < 2 ^ Z.pos (Pos.size p).
Proof.
  rewrite size_log2.
  replace (Z.log2 (Z.pos p) + 1 - 1) with (Z.log2 (Z.pos p)) by lia.
  replace (Z.log2 (Z.pos p) + 1) with (Z.succ (Z.log2 (Z.pos p))) by lia.
  apply Z.log2_spec. lia.
Qed.

Lemma size_unique (p : positive) (d : Z) :
  2 ^ (d - 1) <= Z.pos p < 2 ^ d -> Z.pos (Pos.size p) = d.
Proof.
  intros H. rewrite size_log2.
  assert (0 <= d - 1).
  { destruct (Z.le_gt_cases 0 (d - 1)) as [|Hn]; [assumption|].
    assert (d <= 0) by lia.
    assert (2 ^ d <= 2 ^ 0) by (apply Z.pow_le_mono_r; lia).
    simpl in *. lia. }
  assert (Z.log2 (Z.pos p) = d - 1); [|lia].
  apply Z.log2_unique; [lia|]. replace (Z.succ (d - 1)) with d by lia. exact H.
Qed.

Lemma valid_mantissa_bound s m e :
  valid_binary (S754_finite s m e) = true -> Z.pos m < 2 ^ 53.
Proof.
  unfold valid_binary, bounded, canonical_mantissa, fexp, emin.
  rewrite digits2_size. intros H.
  apply andb_prop in H as [H _]. apply Z.eqb_eq in H.
  pose proof (size_bounds m) as [_ Hb].
  assert (Z.pos (Pos.size m) <= 53) by (change prec with 53 in H; lia).
  eapply Z.lt_le_trans; [exact Hb|]. apply Z.pow_le_mono_r; lia.
Qed.

Lemma SF_of_pos_small s p :
  Z.pos p < 2 ^ 53 ->
  let d := Z.pos (Pos.size p) in
  exists m, Z.pos m = Z.pos p * 2 ^ (53 - d) /\ d <= 53 /\
            Z.pos (Pos.size m) = 53 /\
            SF_of_pos s p = S754_finite s m (d - 53).
Proof.
  intros Hp d. pose proof (size_bounds p) as [Hlo Hhi]. fold d in Hlo, Hhi.
  assert (Hd : d <= 53).
  { destruct (Z.le_gt_cases d 53) as [|Hn]; [assumption|].
    assert (2 ^ 53 <= 2 ^ (d - 1)) by (apply Z.pow_le_mono_r; lia). lia. }
  assert (Hpow : 0 < 2 ^ (53 - d)) by (apply Z.pow_pos_nonneg; lia).
  exists (Z.to_pos (Z.pos p * 2 ^ (53 - d))).
  assert (Hm : Z.pos (Z.to_pos (Z.pos p * 2 ^ (53 - d))) = Z.pos p * 2 ^ (53 - d))
    by (rewrite Z2Pos.id; lia).
  repeat split; try assumption.
  - apply size_unique. rewrite Hm.
    assert (Hd1 : 0 <= d - 1) by (unfold d; lia).
    replace (2 ^ (53 - 1)) with (2 ^ (d - 1) * 2 ^ (53 - d))
      by (rewrite <- Z.pow_add_r by lia; f_equal; lia).
    replace (2 ^ 53) with (2 ^ d * 2 ^ (53 - d))
      by (rewrite <- Z.pow_add_r by lia; f_equal; lia).
    split; [apply Z.mul_le_mono_nonneg_r; lia | apply Z.mul_lt_mono_pos_r; lia].
  - unfold SF_of_pos. fold d. apply Z.leb_le in Hd. rewrite Hd. reflexivity.
Qed.

Lemma SF_of_pos_valid s p :
  Z.pos p < 2 ^ 53 -> valid_binary (SF_of_pos s p) = true.
Proof.
  intros Hp. destruct (SF_of_pos_small s p Hp) as (m & _ & Hd & Hsize & ->).
  unfold valid_binary, bounded, canonical_mantissa, fexp, emin.
  rewrite digits2_size, Hsize. change prec with 53. change emax with 1024.
  apply andb_true_intro. split; [apply Z.eqb_eq | apply Z.leb_le]; lia.
Qed.

Lemma SF_of_pos_exact s p :
  Z.pos p < 2 ^ 53 -> SF2Z (SF_of_pos s p) = Some (signed s p).
Proof.
  intros Hp. destruct (SF_of_pos_small s p Hp) as (m & Hm & Hd & _ & ->).
  set (d := Z.pos (Pos.size p)) in *.
  assert (Hpow : 0 < 2 ^ (53 - d)) by (apply Z.pow_pos_nonneg; lia).
  assert (Hs : (if s then Z.neg m else Z.pos m) = signed s p * 2 ^ (53 - d)).
  { unfold signed. destruct s; [|exact Hm].
    rewrite <- !Pos2Z.opp_pos, Hm. lia. }
  unfold SF2Z. rewrite Hs.
  destruct (0 <=? d - 53) eqn:E.
  - apply Z.leb_le in E. replace (d - 53) with 0 by lia.
    replace (53 - d) with 0 by lia. f_equal. lia.
  - replace (- (d - 53)) with (53 - d) by lia.
    rewrite Z.mod_mul by lia. simpl. rewrite Z.div_mul by lia. reflexivity.
Qed.

Lemma to_Z_of_Z (n : Z) :
  Z.abs n < 2 ^ 53 -> to_Z (of_Z n) = Some n.
Proof.
  intros Hn. unfold to_Z, of_Z.
  destruct n as [|p|p]; simpl SF_of_Z.
  - reflexivity.
  - rewrite Prim2SF_SF2Prim by (apply SF_of_pos_valid; exact Hn).
    apply (SF_of_pos_exact false). exact Hn.
  - rewrite Prim2SF_SF2Prim by (apply SF_of_pos_valid; exact Hn).
    apply (SF_of_pos_exact true). exact Hn.
Qed.

Lemma SF_of_pos_large s p :
  53 < Z.pos (Pos.size p) ->
  (exists m e, SF_of_pos s p = S754_finite s m e /\
               Z.pos (Pos.size m) = 53 /\ 1 <= e <= 971)
  \/ SF_of_pos s p = S754_infinity s.
Proof.
  intros Hd. unfold SF_of_pos.
  pose proof (size_bounds p) as [Hlo Hhi].
  set (d := Z.pos (Pos.size p)) in *.
  assert (Hle : (d <=? 53) = false) by (apply Z.leb_gt; exact Hd). rewrite Hle.
  set (k := d - 53). assert (Hk : 1 <= k) by (unfold k; lia).
  assert (Hpow : 0 < 2 ^ k) by (apply Z.pow_pos_nonneg; lia).
  assert (Hq : 2 ^ 52 <= Z.pos p / 2 ^ k < 2 ^ 53).
  { split.
    - apply Z.div_le_lower_bound; [lia|].
      replace (d - 1) with (k + 52) in Hlo by (unfold k; lia).
      rewrite Z.pow_add_r in Hlo by lia. lia.
    - apply Z.div_lt_upper_bound; [lia|].
      replace d with (k + 53) in Hhi by (unfold k; lia).
      rewrite Z.pow_add_r in Hhi by lia. lia. }
  set (q := Z.pos p / 2 ^ k) in *.
  match goal with
  | |- context [if ?b then q + 1 else q] => set (q' := if b then q + 1 else q)
  end.
  assert (Hq' : 2 ^ 52 <= q' <= 2 ^ 53) by (unfold q'; destruct (_ || _); lia).
  destruct (q' =? 2 ^ 53) eqn:Etop.
  - destruct (k + 1 <=? 971) eqn:Ee; [left|right; reflexivity].
    apply Z.leb_le in Ee. exists (Z.to_pos (2 ^ 52)), (k + 1).
    repeat split; try lia. 
  - destruct (k <=? 971) eqn:Ee; [left|right; reflexivity].
    apply Z.leb_le in Ee. apply Z.eqb_neq in Etop.
    exists (Z.to_pos q'), k. repeat split; try lia.
    apply size_unique. rewrite Z2Pos.id by lia. change (53 - 1) with 52. lia.
Qed.

Lemma SF_of_pos_valid_all s p : valid_binary (SF_of_pos s p) = true.
Proof.
  destruct (Z.le_gt_cases (Z.pos (Pos.size p)) 53) as [Hd|Hd].
  - apply SF_of_pos_valid. pose proof (size_bounds p) as [_ Hhi].
    eapply Z.lt_le_trans; [exact Hhi|]. apply Z.pow_le_mono_r; lia.
  - destruct (SF_of_pos_large s p Hd) as [(m & e & -> & Hm & He)| ->]; [|reflexivity].
    unfold valid_binary, bounded, canonical_mantissa, fexp, emin.
    rewrite digits2_size, Hm. change prec with 53. change emax with 1024.
    apply andb_true_intro. split; [apply Z.eqb_eq | apply Z.leb_le]; lia.
Qed.

(** A positive integer never becomes the Number zero. *)
Lemma of_Z_pos_nonzero (p : positive) : (of_Z (Z.pos p) =? 0)%float = false.
Proof.
  rewrite FloatAxioms.eqb_spec. unfold of_Z. cbn [SF_of_Z].
  rewrite Prim2SF_SF2Prim by apply SF_of_pos_valid_all.
  change (Prim2SF 0) with (S754_zero false).
  destruct (Z.le_gt_cases (Z.pos (Pos.size p)) 53) as [Hd|Hd].
  - assert (Hp : Z.pos p < 2 ^ 53).
    { pose proof (size_bounds p) as [_ Hhi].
      eapply Z.lt_le_trans; [exact Hhi|]. apply Z.pow_le_mono_r; lia. }
    destruct (SF_of_pos_small false p Hp) as (m & _ & _ & _ & ->). reflexivity.
  - destruct (SF_of_pos_large false p Hd) as [(m & e & -> & _)| ->]; reflexivity.
Qed.

Lemma length_cons_nonzero {A} (x : A) (l : list A) :
  strict_equals_number (JNum (of_Z (Z.of_nat (List.length (x :: l))))) 0%float = false.
Proof.
  cbn [List.length strict_equals_number]. rewrite Nat2Z.inj_succ.
  destruct (Z.of_nat (List.length l)) as [|p|p] eqn:E; try lia.
  - apply (of_Z_pos_nonzero 1).
  - rewrite <- Pos2Z.inj_succ. apply of_Z_pos_nonzero.
Qed.

Lemma round_half_up_bound s m e :
  e < 0 -> Z.abs (round_half_up s m e) <= Z.pos m.
Proof.
  intros He. unfold round_half_up.
  set (k := - e). assert (Hk : 1 <= k) by (unfold k; lia).
  replace (1 - e) with (1 + k) by (unfold k; lia).
  rewrite Z.pow_add_r by lia. change (2 ^ 1) with 2.
  assert (HD : 2 <= 2 ^ k).
  { change 2 with (2 ^ 1) at 1. apply Z.pow_le_mono_r; lia. }
  set (D := 2 ^ k) in *.
  destruct s.
  - assert (Hlo : - Z.pos m <= (2 * Z.neg m + D) / (2 * D)).
    { apply Z.div_le_lower_bound; [lia|]. rewrite <- Pos2Z.opp_pos. nia. }
    assert (Hhi : (2 * Z.neg m + D) / (2 * D) <= 0).
    { assert ((2 * Z.neg m + D) / (2 * D) < 1); [|lia].
      apply Z.div_lt_upper_bound; lia. }
    lia.
  - assert (Hlo : 0 <= (2 * Z.pos m + D) / (2 * D)) by (apply Z.div_pos; lia).
    assert (Hhi : (2 * Z.pos m + D) / (2 * D) < Z.pos m + 1).
    { apply Z.div_lt_upper_bound; [lia|]. nia. }
    lia.
Qed.

Lemma Math_round_integer (x : float) :
  is_finite x = true ->
  exists q, to_Q x = Some q /\ to_Z (Math_round x) = Some (floor_half q).
Proof.
  unfold is_finite, to_Q, to_Z, Math_round.
  pose proof (Prim2SF_valid x) as Hv.
  destruct (Prim2SF x) as [s0| s0 | |s m e] eqn:E; try discriminate; intros _.
  - eexists; split; [reflexivity|]. rewrite E. reflexivity.
  - simpl SF2Q. destruct (0 <=? e) eqn:He.
    + eexists; split; [reflexivity|]. rewrite E. simpl. rewrite He.
      f_equal. unfold floor_half. simpl Qnum. simpl Qden.
      set (N := (if s then Z.neg m else Z.pos m) * 2 ^ e).
      apply Z.div_unique with (r := 1); lia.
    + apply Z.leb_gt in He.
      eexists; split; [reflexivity|].
      assert (Hpow : 0 < 2 ^ (- e)) by (apply Z.pow_pos_nonneg; lia).
      assert (Hn : floor_half (Qmake (if s then Z.neg m else Z.pos m) (Z.to_pos (2 ^ (- e))))
                   = round_half_up s m e).
      { unfold floor_half, round_half_up. simpl Qnum. simpl Qden.
        rewrite Z2Pos.id by lia. f_equal.
        replace (1 - e) with (1 + - e) by lia. rewrite Z.pow_add_r by lia. reflexivity. }
      rewrite Hn.
      destruct (round_half_up s m e =? 0) eqn:E0.
      * apply Z.eqb_eq in E0. rewrite E0. destruct s; reflexivity.
      * apply to_Z_of_Z. pose proof (round_half_up_bound s m e He).
        pose proof (valid_mantissa_bound s m e Hv). lia.
Qed.

Lemma floor_half_away (q : Q) :
  0 <= Qnum q -> floor_half q = round_half_away q.
Proof.
  intros Hq. unfold floor_half, round_half_away.
  destruct (Z.eq_dec (Qnum q) 0) as [H0|H0].
  - rewrite H0. simpl. apply Z.div_small. lia.
  - rewrite Z.sgn_pos, Z.abs_eq by lia. lia.
Qed.

Lemma SFcompare_refl_finite s m e :
  SFcompare (S754_finite s m e) (S754_finite s m e) = Some Eq.
Proof.
  simpl. rewrite Z.compare_refl.
  assert (H : Pos.compare_cont Eq m m = Eq) by apply Pos.compare_refl.
  destruct s; simpl; rewrite ?H; reflexivity.
Qed.

Lemma ge_half (a : float) :
  (0.5 <=? a)%float = true ->
  SFpositive (Prim2SF a) /\ (a <? 0.5)%float = false /\
  (a =? 0)%float = false /\ PrimFloat.is_nan a = false.
Proof.
  unfold PrimFloat.is_nan.
  rewrite FloatAxioms.leb_spec, FloatAxioms.ltb_spec, !FloatAxioms.eqb_spec.
  change (Prim2SF 0.5) with (S754_finite false 4503599627370496 (-53)).
  change (Prim2SF 0) with (S754_zero false).
  generalize 4503599627370496%positive (-53). intros m0 e0.
  unfold SFleb, SFltb, SFeqb.
  destruct (Prim2SF a) as [s|s| |s m e].
  - cbn. discriminate.
  - destruct s; cbn; [discriminate|auto].
  - cbn. discriminate.
  - rewrite SFcompare_refl_finite.
    destruct s; [cbn; discriminate|].
    cbn. rewrite (Z.compare_antisym e e0).
    destruct (e ?= e0) eqn:Ee; cbn; try discriminate; auto.
    pose proof (Pos.compare_cont_antisym m0 m Eq) as Hanti. cbn in Hanti.
    rewrite <- Hanti.
    destruct (Pos.compare_cont Eq m0 m); cbn; try discriminate; auto.
Qed.

Lemma mul_positive (a b : float) :
  SFpositive (Prim2SF a) -> SFpositive (Prim2SF b) ->
  is_finite (a * b) = true ->
  exists q, to_Q (a * b)%float = Some q /\ 0 <= Qnum q.
Proof.
  unfold is_finite, to_Q. rewrite mul_spec. unfold SF64mul, SFmul.
  destruct (Prim2SF a) as [sa|sa| |sa ma ea]; simpl; try contradiction;
    destruct sa; try contradiction; intros _;
    destruct (Prim2SF b) as [sb|sb| |sb mb eb]; simpl; try contradiction;
    destruct sb; try contradiction; intros _; try discriminate.
  unfold binary_round_aux.
  destruct (shr_fexp prec emax (Z.pos (ma * mb)) (ea + eb) loc_Exact) as [mrs' e'].
  destruct (shr_fexp prec emax _ e' loc_Exact) as [mrs'' e''].
  destruct (shr_m mrs'') as [|m|m]; try discriminate.
  - intros _. eexists; split; [reflexivity|]. simpl. lia.
  - destruct (e'' <=? emax - prec); try discriminate.
    intros _. eexists; split; [reflexivity|].
    simpl. destruct (0 <=? e''); simpl; [|lia].
    apply Z.mul_nonneg_nonneg; [lia|]. apply Z.pow_nonneg. lia.
Qed.

(* ================================================================== *)
(** * Values and programs: facts *)

Lemma lookup_field_head k v fields : lookup_field k ((k, v) :: fields) = v.
Proof. unfold lookup_field. cbn [List.find fst snd]. rewrite String.eqb_refl. reflexivity. Qed.

Lemma get_prop_value env a v k :
  nullish v = false -> get_prop env a v k = inr (prop_value v k).
Proof. unfold get_prop. intros ->. reflexivity. Qed.

Lemma get_prop_nullish env a v k :
  nullish v = true -> get_prop env a v k = inl (TypeError env a v k).
Proof. unfold get_prop. intros ->. reflexivity. Qed.

Lemma prop_value_nullish v k : nullish v = true -> prop_value v k = JUndefined.
Proof. destruct v; try discriminate; reflexivity. Qed.

Lemma prop_value_defined v k : nullish (prop_value v k) = false -> nullish v = false.
Proof.
  intros H. destruct (nullish v) eqn:Hv; [|reflexivity].
  rewrite (prop_value_nullish v k Hv) in H. discriminate H.
Qed.

Ltac eval_prog :=
  unfold dot, destructure, destructure_or, await;
  cbn [bind try_catch run lift await emit destructure destructure_or dot server_error
       key_string calls console result
       create_payment_intent create_subscription create_customer get_customer
       cancel_subscription webhooks_stripe dispatch_event error_middleware
       negb orb andb app List.app].

(** Reads from a value known to be neither [undefined] nor [null]. *)
Ltac read_from v H :=
  repeat (match goal with
          | |- context [get_prop ?env ?a v ?k] => rewrite (get_prop_value env a v k H)
          end; eval_prog).

Ltac destruct_reads :=
  repeat match goal with
         | |- context [get_prop ?env Read ?v ?k] =>
             destruct (get_prop env Read v k); eval_prog
         end.

Ltac finish_reads :=
  repeat first
    [ reflexivity
    | match goal with
      | |- context [get_prop ?env Read ?v ?k] =>
          destruct (get_prop env Read v k); eval_prog
      | |- context [if strict_equals_number ?v ?n then _ else _] =>
          destruct (strict_equals_number v n); eval_prog
      end ].

Lemma run_bind {A B} stripe past (p : Prog A) (f : A -> Prog B) :
  run stripe past (bind p f) =
  let r := run stripe past p in
  match result r with
  | inl e => mkRun (calls r) (console r) (inl e)
  | inr a =>
      let r' := run stripe (past ++ calls r) (f a) in
      mkRun (calls r ++ calls r') (console r ++ console r') (result r')
  end.
Proof.
  revert past. induction p as [a|e|c k IH|l k IH]; intros past; cbn [bind run calls console result].
  - cbv zeta. rewrite List.app_nil_r. cbn [List.app]. destruct (run stripe past (f a)); reflexivity.
  - reflexivity.
  - rewrite IH. cbv zeta. destruct (result (run stripe (past ++ [c]) (k (stripe past c))));
      cbn [calls console result]; [reflexivity|].
    rewrite <- List.app_assoc. reflexivity.
  - rewrite IH. cbv zeta. destruct (result (run stripe past k));
      cbn [calls console result]; reflexivity.
Qed.

Section AllCalls.

Context {A B : Type} (P : StripeCall -> Prop).

Lemma all_calls_bind (p : Prog A) (f : A -> Prog B) :
  all_calls P p -> (forall a, all_calls P (f a)) -> all_calls P (bind p f).
Proof.
  intros Hp Hf. induction p as [a|e|c k IH|l k IH]; cbn [bind all_calls] in *; auto.
  destruct Hp as [Hc Hk]. split; auto.
Qed.

Lemma all_calls_try_catch (p : Prog A) (h : JsError -> Prog A) :
  all_calls P p -> (forall e, all_calls P (h e)) -> all_calls P (try_catch p h).
Proof.
  intros Hp Hh. induction p as [a|e|c k IH|l k IH]; cbn [try_catch all_calls] in *; auto.
  destruct Hp as [Hc Hk]. split; auto.
Qed.

Lemma all_calls_lift (c : Completion A) : all_calls P (lift c).
Proof. destruct c; exact I. Qed.

Lemma all_calls_run (p : Prog A) :
  all_calls P p -> forall stripe past, List.Forall P (calls (run stripe past p)).
Proof.
  induction p as [a|e|c k IH|l k IH]; cbn [run all_calls calls]; intros Hp stripe past.
  - constructor.
  - constructor.
  - destruct Hp as [Hc Hk]. constructor; auto.
  - auto.
Qed.

End AllCalls.

Ltac all_calls_tac :=
  repeat first
    [ exact I
    | apply all_calls_lift
    | apply all_calls_try_catch
    | apply all_calls_bind
    | progress (cbn [all_calls at_period_end await emit server_error destructure
                     destructure_or dot])
    | progress intros
    | split
    | reflexivity
    | match goal with
      | |- all_calls _ (if ?b then _ else _) => destruct b
      | |- all_calls _ (match ?x with inl _ => _ | inr _ => _ end) => destruct x
      | |- all_calls _ (match ?x with Some _ => _ | None => _ end) => destruct x
      end ].

Lemma last_call_inv (c d : StripeCall) (pre pre' : list StripeCall) :
  pre' ++ [d] = pre ++ [c] -> pre = pre' /\ c = d.
Proof. intros H. apply List.app_inj_tail in H as [-> ->]. split; reflexivity. Qed.

Lemma no_last_call (c : StripeCall) (pre : list StripeCall) : [] <> pre ++ [c].
Proof. apply List.app_cons_not_nil. Qed.

(* ================================================================== *)
(** * The application on concrete requests *)

Example pay_19_99 :
  Examples.answer (Examples.post "/api/create-payment-intent"
                      (JObj [("amount", JNum 19.99%float)]))
  = inr (res_json 200 (JObj [("clientSecret", JStr "pi_1_secret");
                             ("paymentIntentId", JStr "pi_1")])).
Proof. vm_compute. reflexivity. Qed.

Example pay_0_49 :
  Examples.answer (Examples.post "/api/create-payment-intent"
                      (JObj [("amount", JNum 0.49%float)]))
  = inr (res_json 400 (JObj [("error", JStr "Invalid amount. Minimum amount is $0.50")])).
Proof. vm_compute. reflexivity. Qed.

Example webhook_bad_signature :
  Examples.answer (Examples.webhook (JStr "t=1,v1=bad")
                      (JObj [("type", JStr "invoice.payment_failed")]))
  = inr (res_send 400
           (JStr "Webhook Error: No signatures found matching the expected signature for payload")).
Proof. vm_compute. reflexivity. Qed.

Example webhook_unknown_type :
  Examples.answer (Examples.webhook (JStr "t=1,v1=good")
                      (JObj [("type", JStr "charge.refunded")]))
  = inr (res_json 200 (JObj [("received", JBool true)])).
Proof. vm_compute. reflexivity. Qed.

(** A verified event of a handled type without [data]: the read of
    [event.data.object] throws outside the [try], and the error middleware
    answers. *)
Example webhook_without_data :
  Examples.answer (Examples.webhook (JStr "t=1,v1=good")
                      (JObj [("type", JStr "payment_intent.succeeded")]))
  = inr (res_json 500 (JObj [("error", JStr "Internal server error");
                             ("message", JStr "Something went wrong")])).
Proof. vm_compute. reflexivity. Qed.

Example unknown_route :
  Examples.answer (mkRequest GET "/nowhere" "198.51.100.1" 0 [] [] JUndefined)
  = inr (res_json 404 (JObj [("error", JStr "Route not found")])).
Proof. vm_compute. reflexivity. Qed.

Example customer_by_email :
  Examples.answer (mkRequest GET "/api/customer/ada@example.com" "198.51.100.1" 0 [] []
                      JUndefined)
  = inr (res_json 200 (JObj [("customerId", JStr "cus_1"); ("email", JStr "ada@example.com");
                             ("name", JStr "Ada"); ("created", JNum 1700000000%float)])).
Proof. vm_compute. reflexivity. Qed.

(** The router matches in any letter case and with a trailing slash. *)
Example health_any_case :
  Examples.answer (mkRequest GET "/HEALTH/" "198.51.100.1" 0 [] [] JUndefined)
  = inr (health_answer Examples.env0 0).
Proof. vm_compute. reflexivity. Qed.

(** A path the router cannot decode ends at the error middleware. *)
Example customer_broken_escape :
  Examples.answer (mkRequest GET "/api/customer/%E0%A4%A" "198.51.100.1" 0 [] [] JUndefined)
  = inr (res_json 500 (JObj [("error", JStr "Internal server error");
                             ("message", JStr "Something went wrong")])).
Proof. vm_compute. reflexivity. Qed.

(** A verified event whose type, none of the seven, cannot be turned
    into a string: the template literal of the [default] branch throws
    outside the [try]. *)
Example webhook_unprintable_type :
  Examples.answer (Examples.webhook (JStr "t=1,v1=good")
                      (JObj [("type", JObj [("toString", JNull)])]))
  = inr (res_json 500 (JObj [("error", JStr "Internal server error");
                             ("message", JStr "Something went wrong")])).
Proof. vm_compute. reflexivity. Qed.

(** A preflight is answered by the CORS middleware, which gives back an
    [Origin] on the allow-list only; the handler of [app.options('*')]
    is not reached. *)
Example preflight_foreign_origin :
  Examples.answer (mkRequest OPTIONS "/api/create-customer" "198.51.100.1" 0
                      [("origin", JStr "https://elsewhere.example")] [] JUndefined)
  = inr (mkResponse 200
           [("Vary", JStr "Origin");
            ("Access-Control-Allow-Credentials", JStr "true");
            ("Access-Control-Allow-Methods", JStr "GET,POST,PUT,DELETE,OPTIONS");
            ("Access-Control-Allow-Headers",
              JStr "Content-Type,Authorization,X-Requested-With");
            ("Content-Length", JStr "0")]
           no_body).
Proof. vm_compute. reflexivity. Qed.

(* ================================================================== *)
(** * create-payment-intent *)

(** C1, as amended.  For every create-payment-intent request, with the body
    the JSON parser leaves, whose [amount] is a number at least 0.50, the
    handler makes exactly one provider call, a create-payment-intent whose
    [amount] field is [Math.round(amount * 100)], the product being the
    double-precision one.  Whenever that product is finite the field is an
    integer number of minor units: the product rounded to the nearest
    integer, halves away from zero. *)
Theorem create_payment_intent_minor_units env stripe past req a :
  nullish (body req) = false ->
  member (body req) "amount" = JNum a ->
  (0.5 <=? a)%float = true ->
  let product := (a * 100)%float in
  let r := run stripe past (create_payment_intent env req) in
  List.map amount_sent (calls r) = [JNum (Math_round product)] /\
  (is_finite product = true ->
   exists q, to_Q product = Some q /\
             to_Z (Math_round product) = Some (round_half_away q)).
Proof.
  intros Hbody Hamount Hge product r.
  destruct (ge_half a Hge) as (Hpos & Hlt & Hzero & Hnan).
  split.
  - subst r. unfold create_payment_intent. eval_prog.
    unfold member in Hamount. read_from (body req) Hbody.
    rewrite Hamount. cbn [ToBoolean]. rewrite Hzero, Hnan.
    unfold lt_number, mul_number. cbn [ToNumber]. rewrite Hlt. eval_prog.
    fold product. cbn [List.map amount_sent]. unfold member at 1.
    cbn [prop_value key_string]. rewrite lookup_field_head.
    destruct (stripe _ _) as [e|paymentIntent]; eval_prog; [reflexivity|].
    destruct (get_prop env Read paymentIntent (Named "client_secret")); eval_prog;
      [reflexivity|].
    destruct (get_prop env Read paymentIntent (Named "id")); eval_prog; reflexivity.
  - intros Hfin.
    destruct (mul_positive a 100%float Hpos I Hfin) as (q & Hq & Hq0).
    destruct (Math_round_integer _ Hfin) as (q' & Hq' & Hz).
    fold product in Hq. rewrite Hq in Hq'. injection Hq' as <-.
    exists q. split; [assumption|]. rewrite Hz. f_equal. apply floor_half_away. assumption.
Qed.

Lemma create_payment_intent_minor_units_witness :
  let req := Examples.post "/api/create-payment-intent" (JObj [("amount", JNum 19.99%float)]) in
  let r := run Examples.stripe_down [] (create_payment_intent Examples.env0 req) in
  List.map amount_sent (calls r) = [JNum 1999%float] /\
  (Number.is_finite (19.99 * 100)%float = true ->
   exists q, to_Q (19.99 * 100)%float = Some q /\
             to_Z (Math_round (19.99 * 100)%float) = Some (round_half_away q)).
Proof.
  intros req r.
  exact (create_payment_intent_minor_units Examples.env0 Examples.stripe_down []
           req 19.99%float eq_refl eq_refl eq_refl).
Defined.

(** C1 as stated fails where the product overflows.  The amount 1e308
    (the double nearest to it) is at least 0.50 and the request is
    accepted, but what is passed to the provider is [Infinity]: no integer
    at all, let alone the rounding of the exact product. *)
Lemma create_payment_intent_overflow :
  let a := 0x1.1ccf385ebc8ap+1023%float in
  let req := Examples.post "/api/create-payment-intent" (JObj [("amount", JNum a)]) in
  (0.5 <=? a)%float = true /\
  ~ minor_units_claim Examples.env0 Examples.stripe_down req a.
Proof.
  split; [reflexivity|].
  intros (x & q & Hsent & _ & Hint).
  vm_compute in Hsent. injection Hsent as <-. vm_compute in Hint. discriminate.
Qed.

(** C2.  For every create-payment-intent request, with the body the JSON
    parser leaves, whose amount is missing or less than 0.50, the handler
    answers 400 with the message "Invalid amount. Minimum amount is $0.50"
    and the provider is never called. *)
Theorem create_payment_intent_below_minimum env stripe past req :
  nullish (body req) = false ->
  let amount := member (body req) "amount" in
  amount = JUndefined \/ lt_number env amount 0.5%float = inr true ->
  let r := run stripe past (create_payment_intent env req) in
  result r = inr (res_json 400
                    (JObj [("error", JStr "Invalid amount. Minimum amount is $0.50")]))
  /\ calls r = [].
Proof.
  intros Hbody amount Hsmall r. subst r. unfold create_payment_intent. eval_prog.
  unfold member in amount. read_from (body req) Hbody. fold amount.
  destruct Hsmall as [Hmissing | Hlt].
  - rewrite Hmissing. cbn [ToBoolean]. eval_prog. split; reflexivity.
  - destruct (ToBoolean amount); eval_prog; [rewrite Hlt|]; eval_prog; split; reflexivity.
Qed.

Lemma create_payment_intent_below_minimum_witness :
  let req := Examples.post "/api/create-payment-intent" (JObj [("amount", JNum 0.25%float)]) in
  let r := run Examples.stripe_down [] (create_payment_intent Examples.env0 req) in
  result r = inr (res_json 400
                    (JObj [("error", JStr "Invalid amount. Minimum amount is $0.50")]))
  /\ calls r = [].
Proof.
  intros req r.
  exact (create_payment_intent_below_minimum Examples.env0 Examples.stripe_down [] req
           eq_refl (or_intror eq_refl)).
Defined.

(* ================================================================== *)
(** * The webhook *)

(** The [switch] on an event it can process: one line on the console, no
    provider call, no error. *)
Lemma run_dispatch_event env stripe past event :
  processable env event = true ->
  run stripe past (dispatch_event env event) =
    mkRun [] [console_log
                match select_case (member event "type") with
                | Some text => [JStr text; member (member (member event "data") "object") "id"]
                | None =>
                    [JStr ("Unhandled event type " ++
                           string_of (ToString env (member event "type")))]
                end]
      (inr tt).
Proof.
  unfold processable, dispatchable. intros H. apply andb_prop in H as [H Htext].
  apply andb_prop in H as [Hevent Hcase]. apply negb_true_iff in Hevent.
  unfold dispatch_event. eval_prog. read_from event Hevent.
  unfold member in *.
  destruct (select_case (prop_value event (Named "type"))); eval_prog.
  - apply negb_true_iff in Hcase.
    pose proof (prop_value_defined _ _ Hcase) as Hdata.
    read_from (prop_value event (Named "data")) Hdata.
    read_from (prop_value (prop_value event (Named "data")) (Named "object")) Hcase.
    reflexivity.
  - read_from event Hevent.
    destruct (ToString env (prop_value event (Named "type"))) as [e|text];
      [discriminate Htext|].
    eval_prog. reflexivity.
Qed.

(** C3, as amended.  For every webhook request the handler submits the
    body, the [stripe-signature] header and the configured secret to the
    provider's signature verification.  If verification rejects with an
    error whose message is a string or can be turned into one, the answer
    is 400 with the text "Webhook Error: " followed by that message, and
    the console shows the verification failure only: the [switch], every
    branch of which logs, is not reached.  If verification yields an event
    the [switch] can process (a value that carries [data.object] when its
    type is one of the seven cases, and whose type can be turned into a
    string when it is not), the answer is [{received: true}] whatever the
    event type, one of the seven cases or not, and the [switch] has
    logged its one line.  In both cases the verification is the only
    provider call. *)
Theorem webhook_contract env stripe past req :
  let sig := lookup_field "stripe-signature" (headers req) in
  let c := webhooks_constructEvent (body req) sig (STRIPE_WEBHOOK_SECRET env) in
  let r := run stripe past (webhooks_stripe env req) in
  (forall err text, stripe past c = inl err -> ToString env (message err) = inr text ->
     calls r = [c] /\
     result r = inr (res_send 400 (JStr ("Webhook Error: " ++ text))) /\
     console r = [console_error [JStr "Webhook signature verification failed:"; message err]]) /\
  (forall event, stripe past c = inr event -> processable env event = true ->
     calls r = [c] /\
     result r = inr (res_json 200 (JObj [("received", JBool true)])) /\
     exists line, console r = [console_log line]).
Proof.
  intros sig c r. subst r. unfold webhooks_stripe. fold sig. eval_prog. fold c.
  split.
  - intros err text Hc Htext. rewrite Hc. eval_prog. rewrite Htext. eval_prog. repeat split.
  - intros event Hc Hevent. rewrite Hc. eval_prog.
    rewrite run_bind, (run_dispatch_event env stripe (past ++ [c]) event Hevent).
    cbn [calls console result run List.app]. eauto.
Qed.

Lemma webhook_contract_witness :
  let req := Examples.webhook (JStr "t=1,v1=good") Examples.succeeded in
  let r := run Examples.stripe_test [] (webhooks_stripe Examples.env0 req) in
  calls r = [webhooks_constructEvent Examples.succeeded (JStr "t=1,v1=good")
               (JStr "whsec_test")] /\
  result r = inr (res_json 200 (JObj [("received", JBool true)])) /\
  exists line, console r = [console_log line].
Proof.
  intros req r.
  exact (proj2 (webhook_contract Examples.env0 Examples.stripe_test [] req)
           Examples.succeeded eq_refl eq_refl).
Defined.

(** C3 as stated fails for a verified event of a handled type that has no
    [data]: reading [event.data.object] throws outside the [try], the
    handler returns nothing, and the error middleware answers 500. *)
Lemma webhook_event_without_data :
  let event := JObj [("type", JStr "payment_intent.succeeded")] in
  let signature := JStr "t=1,v1=good" in
  let req := Examples.webhook signature event in
  Examples.stripe_test [] (webhooks_constructEvent event signature (JStr "whsec_test"))
  = inr event /\
  result (run Examples.stripe_test [] (webhooks_stripe Examples.env0 req))
  <> inr (res_json 200 (JObj [("received", JBool true)])) /\
  Examples.answer req
  = inr (res_json 500 (JObj [("error", JStr "Internal server error");
                             ("message", JStr "Something went wrong")])).
Proof.
  split; [reflexivity|]. split; [vm_compute; discriminate|vm_compute; reflexivity].
Qed.

(* ================================================================== *)
(** * The rate limiter at work *)

Section Limiter.

Variable env : Env.




End Limiter.




(* ================================================================== *)
(** * Preflight requests *)




(* ================================================================== *)
(** * Customer lookup *)

(** C6.  For every request to [/api/customer/:email] the handler makes one
    provider call, a list of customers by that email with limit 1.  When
    the provider's list is empty the answer is 404; when it is not, the
    answer carries the first customer's id, email, name and created
    timestamp.  The answer depends on the provider's reply to that call
    and on nothing else: against any provider that replies alike, the
    handler answers alike. *)
Theorem get_customer_contract env stripe past req :
  let c := customers_list (JObj [("email", lookup_field "email" (params req));
                                 ("limit", JNum 1%float)]) in
  let r := run stripe past (get_customer env req) in
  calls r = [c] /\
  (forall customers items,
     stripe past c = inr customers ->
     member customers "data" = JArr items ->
     match items with
     | [] => result r = inr (res_json 404 (JObj [("error", JStr "Customer not found")]))
     | customer :: _ =>
         nullish customer = false ->
         result r = inr (res_json 200
                           (JObj [("customerId", member customer "id");
                                  ("email", member customer "email");
                                  ("name", member customer "name");
                                  ("created", member customer "created")]))
     end) /\
  (forall stripe' past',
     stripe' past' c = stripe past c ->
     result (run stripe' past' (get_customer env req)) = result r).
Proof.
  intros c r. subst r. unfold get_customer. eval_prog.
  rewrite (get_prop_value env Destructure (JObj (params req)) _ eq_refl).
  cbn [prop_value key_string]. eval_prog. fold c.
  split; [|split].
  - destruct (stripe past c) as [e|customers]; eval_prog; [reflexivity|].
    finish_reads.
  - intros customers items Hc Hdata. rewrite Hc. eval_prog.
    assert (Hcustomers : nullish customers = false).
    { apply (prop_value_defined customers (Named "data")). unfold member in Hdata.
      rewrite Hdata. reflexivity. }
    unfold member in Hdata.
    read_from customers Hcustomers. rewrite Hdata.
    read_from (JArr items) (eq_refl false). cbn [prop_value].
    cbn [String.eqb Ascii.eqb Bool.eqb]. 
    destruct items as [|customer rest].
    + change (strict_equals_number _ _) with true. eval_prog. reflexivity.
    + intros Hcustomer. rewrite length_cons_nonzero. eval_prog.
      read_from (JArr (customer :: rest)) (eq_refl false). cbn [prop_value List.nth].
      read_from customer Hcustomer. reflexivity.
  - intros stripe' past' Hsame. rewrite Hsame.
    destruct (stripe past c) as [e|customers]; eval_prog; [reflexivity|].
    finish_reads.
Qed.

Lemma get_customer_contract_witness :
  let req := mkRequest GET "/api/customer/ada@example.com" "198.51.100.1" 0 []
               [("email", JStr "ada@example.com")] JUndefined in
  result (run Examples.stripe_test [] (get_customer Examples.env0 req))
  = inr (res_json 200 (JObj [("customerId", JStr "cus_1"); ("email", JStr "ada@example.com");
                             ("name", JStr "Ada"); ("created", JNum 1700000000%float)])).
Proof.
  intros req.
  exact (proj1 (proj2 (get_customer_contract Examples.env0 Examples.stripe_test [] req))
           _ _ eq_refl eq_refl eq_refl).
Defined.

(* ================================================================== *)
(** * create-customer *)

(** C8.  For every create-customer request: without an email the handler
    answers 400 and calls nothing; with an email it makes one provider
    call, a create-customer with the request's email, name and metadata,
    and when the provider resolves with a customer the answer carries
    that customer's id, email and name as the provider gave them. *)
Theorem create_customer_contract env stripe past req :
  nullish (body req) = false ->
  let email := member (body req) "email" in
  let r := run stripe past (create_customer env req) in
  (ToBoolean email = false ->
     result r = inr (res_json 400 (JObj [("error", JStr "Email is required")])) /\
     calls r = []) /\
  (ToBoolean email = true ->
     let c := customers_create
                (JObj [("email", email);
                       ("name", member (body req) "name");
                       ("metadata", or_default (member (body req) "metadata") (JObj []))]) in
     calls r = [c] /\
     forall customer, stripe past c = inr customer -> nullish customer = false ->
       result r = inr (res_json 200
                         (JObj [("customerId", member customer "id");
                                ("email", member customer "email");
                                ("name", member customer "name")]))).
Proof.
  intros Hbody email r. subst r. unfold create_customer. eval_prog.
  unfold member in *. read_from (body req) Hbody.
  fold email. split; intros Hemail; rewrite Hemail; eval_prog.
  - split; reflexivity.
  - match goal with |- context [stripe past ?c] => set (call := c) end.
    split.
    + destruct (stripe past call) as [e|customer]; eval_prog; [reflexivity|].
      destruct_reads; reflexivity.
    + intros customer Hc Hcustomer. rewrite Hc. eval_prog.
      read_from customer Hcustomer. reflexivity.
Qed.

Lemma create_customer_contract_witness :
  let req := Examples.post "/api/create-customer" (JObj [("email", JStr "ada@example.com")]) in
  let r := run Examples.stripe_down [] (create_customer Examples.env0 req) in
  calls r = [customers_create (JObj [("email", JStr "ada@example.com");
                                     ("name", JUndefined); ("metadata", JObj [])])].
Proof.
  intros req r.
  exact (proj1 (proj2 (create_customer_contract Examples.env0 Examples.stripe_down [] req
                         eq_refl) eq_refl)).
Defined.

(* ================================================================== *)
(** * cancel-subscription *)

Lemma route_at_period_end env req : all_calls at_period_end (route env req).
Proof.
  unfold route. cbv zeta.
  repeat match goal with
         | |- all_calls _ (if ?b then _ else _) => destruct b
         | |- all_calls _ (match ?x with Some _ => _ | None => _ end) => destruct x
         end;
    unfold health, test_cors, create_payment_intent, create_subscription, create_customer,
      get_customer, cancel_subscription, webhooks_stripe, dispatch_event, not_found;
    all_calls_tac.
Qed.

Lemma app_at_period_end env st req : all_calls at_period_end (snd (app env st req)).
Proof.
  unfold app, cors. destruct (is_options (method req)); [exact I|].
  destruct (decode_param env (path req)) as [e|decoded].
  { cbn [snd]. unfold error_middleware. all_calls_tac. }
  destruct (under_api (path req)).
  - unfold RateLimit.limiter. cbv zeta. destruct (_ <=? _); cbn [snd]; [|exact I].
    apply all_calls_try_catch; [apply route_at_period_end|].
    intros e. unfold error_middleware. all_calls_tac.
  - cbn [snd]. apply all_calls_try_catch; [apply route_at_period_end|].
    intros e. unfold error_middleware. all_calls_tac.
Qed.

(** C9.  For every cancel-subscription request with a subscription id, the
    one provider call is an update of that subscription with
    [cancel_at_period_end: true].  Moreover, whatever the request and the
    route, every subscription update the application asks of the provider
    has exactly these parameters. *)
Theorem cancel_subscription_at_period_end env stripe past req :
  nullish (body req) = false ->
  let subscriptionId := member (body req) "subscriptionId" in
  ToBoolean subscriptionId = true ->
  calls (run stripe past (cancel_subscription env req))
  = [subscriptions_update subscriptionId (JObj [("cancel_at_period_end", JBool true)])]
  /\ forall st req' stripe' past',
       List.Forall at_period_end (calls (run stripe' past' (snd (app env st req')))).
Proof.
  intros Hbody subscriptionId Hid. split.
  - unfold cancel_subscription. eval_prog. unfold member in subscriptionId.
    read_from (body req) Hbody. fold subscriptionId. rewrite Hid. eval_prog.
    destruct (stripe past _) as [e|subscription]; eval_prog; [reflexivity|].
    destruct_reads; reflexivity.
  - intros st req' stripe' past'. apply all_calls_run. apply app_at_period_end.
Qed.

Lemma cancel_subscription_at_period_end_witness :
  let req := Examples.post "/api/cancel-subscription"
               (JObj [("subscriptionId", JStr "sub_123")]) in
  calls (run Examples.stripe_down [] (cancel_subscription Examples.env0 req))
  = [subscriptions_update (JStr "sub_123") (JObj [("cancel_at_period_end", JBool true)])].
Proof.
  intros req.
  exact (proj1 (cancel_subscription_at_period_end Examples.env0 Examples.stripe_down [] req
                  eq_refl eq_refl)).
Defined.

(* ================================================================== *)
(** * create-subscription *)

Lemma read_client_secret_lacking env subscription :
  nullish (embedded_payment_intent subscription) = true ->
  exists e, read_client_secret env subscription = inl e.
Proof.
  unfold embedded_payment_intent, member, read_client_secret. intros Hlack.
  destruct (nullish subscription) eqn:Hs.
  { rewrite (get_prop_nullish env Read subscription _ Hs). eauto. }
  rewrite !(get_prop_value env Read subscription _ Hs).
  destruct (nullish (prop_value subscription (Named "latest_invoice"))) eqn:Hli.
  { rewrite (get_prop_nullish env Read _ _ Hli). eauto. }
  rewrite (get_prop_value env Read _ _ Hli).
  rewrite (get_prop_nullish env Read _ _ Hlack). eauto.
Qed.

Lemma run_subscription_reply env stripe past subscription :
  run stripe past
    (try_catch (subscription_reply env subscription)
       (server_error "Subscription creation failed:" "Failed to create subscription"))
  = match read_client_secret env subscription with
    | inl e => mkRun [] [failure_log e] (inr (subscription_failed e))
    | inr reply => mkRun [] [] (inr (subscription_created reply))
    end.
Proof.
  unfold subscription_reply, read_client_secret. eval_prog.
  destruct_reads; reflexivity.
Qed.

Lemma create_subscription_run env stripe past req :
  nullish (body req) = false ->
  run stripe past (create_subscription env req)
  = create_subscription_outcome env stripe past
      (member (body req) "customerId") (member (body req) "priceId")
      (member (body req) "paymentMethodId").
Proof.
  intros Hbody. unfold create_subscription, create_subscription_outcome, member. eval_prog.
  read_from (body req) Hbody.
  set (customerId := prop_value (body req) (Named "customerId")).
  set (priceId := prop_value (body req) (Named "priceId")).
  set (paymentMethodId := prop_value (body req) (Named "paymentMethodId")).
  destruct (negb (ToBoolean customerId) || negb (ToBoolean priceId)); eval_prog;
    [reflexivity|].
  cbv zeta. unfold subscribe_outcome.
  fold (attach_call customerId paymentMethodId) (set_default_call customerId paymentMethodId)
       (subscribe_call customerId priceId).
  destruct (ToBoolean paymentMethodId); eval_prog.
  - destruct (stripe past _) as [e|?]; eval_prog; [reflexivity|].
    destruct (stripe (past ++ [_]) _) as [e|?]; eval_prog; [reflexivity|].
    rewrite <- !List.app_assoc. cbn [List.app].
    destruct (stripe (past ++ [_; _]) _) as [e|subscription]; eval_prog; [reflexivity|].
    rewrite run_subscription_reply.
    destruct (read_client_secret env subscription); reflexivity.
  - rewrite List.app_nil_r.
    destruct (stripe past _) as [e|subscription]; eval_prog; [reflexivity|].
    rewrite run_subscription_reply.
    destruct (read_client_secret env subscription); reflexivity.
Qed.

(** C7.  For every create-subscription request that carries a payment
    method id, the provider calls the handler makes are an initial part of
    the sequence: attach the payment method to the customer, set it as the
    customer's default, create the subscription.  When the request also
    carries a customer id and a price id the calls run through that
    sequence in order up to the first one that fails: a failure of any of
    the three is answered 500 with that failure's message and no later
    call of the sequence is made. *)
Theorem create_subscription_call_order env stripe past req :
  nullish (body req) = false ->
  let customerId := member (body req) "customerId" in
  let priceId := member (body req) "priceId" in
  let paymentMethodId := member (body req) "paymentMethodId" in
  ToBoolean paymentMethodId = true ->
  let attach := attach_call customerId paymentMethodId in
  let update := set_default_call customerId paymentMethodId in
  let create := subscribe_call customerId priceId in
  let r := run stripe past (create_subscription env req) in
  (exists n, calls r = List.firstn n [attach; update; create]) /\
  (ToBoolean customerId = true -> ToBoolean priceId = true ->
   match stripe past attach with
   | inl e => calls r = [attach] /\ result r = inr (subscription_failed e)
   | inr _ =>
       match stripe (past ++ [attach]) update with
       | inl e => calls r = [attach; update] /\ result r = inr (subscription_failed e)
       | inr _ =>
           calls r = [attach; update; create] /\
           forall e, stripe (past ++ [attach; update]) create = inl e ->
                     result r = inr (subscription_failed e)
       end
   end).
Proof.
  intros Hbody customerId priceId paymentMethodId Hpm attach update create r.
  subst r. rewrite (create_subscription_run env stripe past req Hbody).
  fold customerId priceId paymentMethodId.
  unfold create_subscription_outcome. rewrite Hpm. cbv zeta.
  fold attach update create. unfold subscribe_outcome.
  split.
  - destruct (negb (ToBoolean customerId) || negb (ToBoolean priceId)).
    { exists 0%nat. reflexivity. }
    destruct (stripe past attach) as [e|?]; [exists 1%nat; reflexivity|].
    destruct (stripe (past ++ [attach]) update) as [e|?]; [exists 2%nat; reflexivity|].
    exists 3%nat.
    destruct (stripe (past ++ [attach; update]) create) as [e|subscription];
      [reflexivity|].
    destruct (read_client_secret env subscription); reflexivity.
  - intros Hc Hp. rewrite Hc, Hp. cbn [negb orb].
    destruct (stripe past attach) as [e|?]; [split; reflexivity|].
    destruct (stripe (past ++ [attach]) update) as [e|?]; [split; reflexivity|].
    destruct (stripe (past ++ [attach; update]) create) as [e|subscription].
    + split; [reflexivity|]. intros e' He. injection He as <-. reflexivity.
    + split; [|intros e He; discriminate He].
      destruct (read_client_secret env subscription); reflexivity.
Qed.

Lemma create_subscription_call_order_witness :
  let req := Examples.post "/api/create-subscription"
               (JObj [("customerId", JStr "cus_1"); ("priceId", JStr "price_1");
                      ("paymentMethodId", JStr "pm_1")]) in
  let r := run Examples.stripe_down [] (create_subscription Examples.env0 req) in
  calls r = [attach_call (JStr "cus_1") (JStr "pm_1")] /\
  result r = inr (subscription_failed (mkError (JStr "connection refused"))).
Proof.
  intros req r.
  exact (proj2 (create_subscription_call_order Examples.env0 Examples.stripe_down [] req
                  eq_refl eq_refl) eq_refl eq_refl).
Defined.

Lemma subscribe_outcome_handles env stripe past pre customerId priceId :
  handles_missing_intent env stripe past
    (subscribe_outcome env stripe past pre (subscribe_call customerId priceId)).
Proof.
  unfold subscribe_outcome, handles_missing_intent.
  destruct (stripe (past ++ pre) (subscribe_call customerId priceId))
    as [e|subscription] eqn:Hans.
  - cbn [calls result]. split; [eauto|]. split.
    + intros pre' params s Hcalls Hs. apply last_call_inv in Hcalls as [-> Heq].
      rewrite Heq, Hans in Hs. discriminate Hs.
    + intros response Hr Hst. injection Hr as <-. discriminate Hst.
  - destruct (read_client_secret env subscription) as [e|reply] eqn:Hread;
      cbn [calls result]; (split; [eauto|]); split.
    + eauto.
    + intros response Hr Hst. injection Hr as <-. discriminate Hst.
    + intros pre' params s Hcalls Hs Hlack. apply last_call_inv in Hcalls as [-> Heq].
      rewrite Heq, Hans in Hs. injection Hs as <-.
      destruct (read_client_secret_lacking env subscription Hlack) as [e He].
      rewrite He in Hread. discriminate Hread.
    + intros response Hr _. injection Hr as <-.
      exists pre, (JObj [("customer", customerId);
                         ("items", JArr [JObj [("price", priceId)]]);
                         ("payment_behavior", JStr "default_incomplete");
                         ("expand", JArr [JStr "latest_invoice.payment_intent"])]),
        subscription, reply.
      repeat split; assumption.
Qed.

Lemma failed_handles env stripe past pre c e log :
  (forall params, c <> subscriptions_create params) ->
  handles_missing_intent env stripe past
    (mkRun (pre ++ [c]) log (inr (subscription_failed e))).
Proof.
  intros Hc. unfold handles_missing_intent. cbn [calls result].
  split; [eauto|]. split.
  - intros pre' params s Hcalls. apply last_call_inv in Hcalls as [_ Heq].
    symmetry in Heq. destruct (Hc params Heq).
  - intros response Hr Hst. injection Hr as <-. discriminate Hst.
Qed.

Lemma no_call_handles env stripe past log response :
  status response <> 200 ->
  handles_missing_intent env stripe past (mkRun [] log (inr response)).
Proof.
  intros Hst. unfold handles_missing_intent. cbn [calls result].
  split; [eauto|]. split.
  - intros pre params s Hcalls. destruct (no_last_call _ _ Hcalls).
  - intros response' Hr Hst'. injection Hr as <-. contradiction.
Qed.

(** C10.  Every create-subscription request gets a response: no error
    escapes the handler.  When the provider's answer to the
    create-subscription call has no [latest_invoice], or one without a
    [payment_intent] (the field null or absent), the response is the 500
    error response.  A 200 response is produced only when the provider
    answered the create-subscription call and
    [subscription.latest_invoice.payment_intent.client_secret] could be
    read from the answer; it then carries what was read. *)
Theorem create_subscription_missing_intent env stripe past req :
  let r := run stripe past (create_subscription env req) in
  (exists response, result r = inr response) /\
  (forall pre params subscription,
     calls r = pre ++ [subscriptions_create params] ->
     stripe (past ++ pre) (subscriptions_create params) = inr subscription ->
     nullish (embedded_payment_intent subscription) = true ->
     exists e, result r = inr (subscription_failed e)) /\
  (forall response,
     result r = inr response -> status response = 200 ->
     exists pre params subscription reply,
       calls r = pre ++ [subscriptions_create params] /\
       stripe (past ++ pre) (subscriptions_create params) = inr subscription /\
       read_client_secret env subscription = inr reply /\
       response = subscription_created reply).
Proof.
  intros r. subst r.
  change (handles_missing_intent env stripe past
            (run stripe past (create_subscription env req))).
  destruct (nullish (body req)) eqn:Hbody.
  - unfold create_subscription. eval_prog.
    rewrite (get_prop_nullish env Destructure (body req) _ Hbody). eval_prog.
    apply no_call_handles. discriminate.
  - rewrite (create_subscription_run env stripe past req Hbody).
    unfold create_subscription_outcome.
    destruct (negb _ || negb _).
    { apply no_call_handles. discriminate. }
    cbv zeta. destruct (ToBoolean _).
    + destruct (stripe past _) as [e|?].
      { apply (failed_handles env stripe past []). discriminate. }
      destruct (stripe (past ++ _) _) as [e|?].
      { apply (failed_handles env stripe past [_]). discriminate. }
      apply subscribe_outcome_handles.
    + apply subscribe_outcome_handles.
Qed.

Lemma create_subscription_missing_intent_witness :
  let r := run Examples.stripe_no_invoice []
             (create_subscription Examples.env0 Examples.subscribe) in
  exists e, result r = inr (subscription_failed e).
Proof.
  intros r.
  exact (proj1 (proj2 (create_subscription_missing_intent Examples.env0
                         Examples.stripe_no_invoice [] Examples.subscribe))
           [] _ (JObj [("id", JStr "sub_1"); ("latest_invoice", JNull)])
           eq_refl eq_refl eq_refl).
Defined.

(* ================================================================== *)
(** * How the handlers end *)

Lemma always_returns_run {A} (P : A -> Prop) (p : Prog A) :
  always_returns P p ->
  forall stripe past, exists a, result (run stripe past p) = inr a /\ P a.
Proof.
  induction p as [a|e|c k IH|l k IH]; cbn [always_returns run result]; intros Hp stripe past.
  - eauto.
  - destruct Hp.
  - apply IH. apply Hp.
  - apply IH. exact Hp.
Qed.

Lemma always_returns_weaken {A} (P Q : A -> Prop) (p : Prog A) :
  (forall a, P a -> Q a) -> always_returns P p -> always_returns Q p.
Proof.
  intros HPQ. induction p as [a|e|c k IH|l k IH]; cbn [always_returns]; auto.
Qed.

Lemma always_returns_try_catch {A} (P : A -> Prop) (p : Prog A) (h : JsError -> Prog A) :
  all_results P p -> (forall e, always_returns P (h e)) -> always_returns P (try_catch p h).
Proof.
  intros Hp Hh. induction p as [a|e|c k IH|l k IH]; cbn [try_catch all_results always_returns] in *;
    auto.
Qed.

Lemma all_results_bind {A B} (P : B -> Prop) (p : Prog A) (f : A -> Prog B) :
  (forall a, all_results P (f a)) -> all_results P (bind p f).
Proof.
  intros Hf. induction p as [a|e|c k IH|l k IH]; cbn [bind all_results]; auto.
Qed.

Lemma always_returns_all {A} (P : A -> Prop) (p : Prog A) :
  always_returns P p -> all_results P p.
Proof.
  induction p as [a|e|c k IH|l k IH]; cbn [all_results always_returns]; auto.
Qed.

Lemma shaped_ok codes v : In 200 codes -> shaped codes (res_json 200 v).
Proof. intros H. split; [exact H|]. intros Hne. destruct (Hne eq_refl). Qed.

Lemma shaped_error codes code text rest :
  In code codes -> shaped codes (res_json code (JObj (("error", JStr text) :: rest))).
Proof. intros H. split; [exact H|]. intros _. exists text, rest. reflexivity. Qed.

(** Walks through a handler body: every bind is passed, every branch
    taken, down to the responses. *)
Ltac walk :=
  repeat first
    [ exact I
    | apply shaped_ok; cbn [In]; tauto
    | apply shaped_error; cbn [In]; tauto
    | apply all_results_bind; intros
    | progress (cbn [all_results always_returns emit server_error bind])
    | match goal with
      | |- all_results _ (if ?b then _ else _) => destruct b
      | |- all_results _ (match ?x with inl _ => _ | inr _ => _ end) => destruct x
      | |- all_results _ (match ?x with Some _ => _ | None => _ end) => destruct x
      end ].

Ltac handler_returns :=
  apply always_returns_try_catch; [|intros e]; walk.

Lemma create_payment_intent_returns env req :
  always_returns (shaped [200; 400; 500]) (create_payment_intent env req).
Proof. unfold create_payment_intent. handler_returns. Qed.

Lemma create_subscription_returns env req :
  always_returns (shaped [200; 400; 500]) (create_subscription env req).
Proof. unfold create_subscription, subscription_reply. handler_returns. Qed.

Lemma create_customer_returns env req :
  always_returns (shaped [200; 400; 500]) (create_customer env req).
Proof. unfold create_customer. handler_returns. Qed.

Lemma get_customer_returns env req :
  always_returns (shaped [200; 404; 500]) (get_customer env req).
Proof. unfold get_customer. handler_returns. Qed.

Lemma cancel_subscription_returns env req :
  always_returns (shaped [200; 400; 500]) (cancel_subscription env req).
Proof. unfold cancel_subscription. handler_returns. Qed.

Lemma answers_with_returns codes p stripe past :
  always_returns (shaped codes) p -> answers_with codes (run stripe past p).
Proof.
  intros H. destruct (always_returns_run _ _ H stripe past) as (response & Hr & Hs).
  exists response. auto.
Qed.

(** X1.  None of the five async handlers lets an error escape: whatever
    the request (its body may even be missing) and whatever the provider
    does, the handler answers.  The status is 200, 400 or 500 (200, 404 or
    500 for the customer lookup), and every answer other than a 200 is a
    JSON object with an [error] text. *)
Theorem async_handlers_answer env stripe past req :
  answers_with [200; 400; 500] (run stripe past (create_payment_intent env req)) /\
  answers_with [200; 400; 500] (run stripe past (create_subscription env req)) /\
  answers_with [200; 400; 500] (run stripe past (create_customer env req)) /\
  answers_with [200; 404; 500] (run stripe past (get_customer env req)) /\
  answers_with [200; 400; 500] (run stripe past (cancel_subscription env req)).
Proof.
  split; [|split; [|split; [|split]]]; apply answers_with_returns.
  - apply create_payment_intent_returns.
  - apply create_subscription_returns.
  - apply create_customer_returns.
  - apply get_customer_returns.
  - apply cancel_subscription_returns.
Qed.

(* ================================================================== *)
(** * The application as a whole *)

Lemma is_post_POST m : is_post m = true -> m = POST.
Proof. destruct m; try discriminate; reflexivity. Qed.

Lemma webhooks_stripe_results env req (P : Response -> Prop) :
  (forall text, P (res_send 400 (JStr text))) ->
  P (res_json 200 (JObj [("received", JBool true)])) ->
  all_results P (webhooks_stripe env req).
Proof.
  intros H400 H200. unfold webhooks_stripe, await.
  cbn [try_catch bind all_results lift]. intros [err|event]; cbn [try_catch bind all_results emit lift].
  - destruct (ToString env (message err)) as [e|text]; cbn [bind all_results lift];
      [exact I|apply H400].
  - apply all_results_bind. intros ?. exact H200.
Qed.

(** What a request can be handed to. *)
Lemma route_cases env req (Q : Prog Response -> Prop) :
  Q (health env req) ->
  Q (test_cors env req) ->
  (method req = POST -> matches "/api/create-payment-intent" (path req) = true ->
   Q (create_payment_intent env req)) ->
  (method req = POST -> matches "/api/create-subscription" (path req) = true ->
   Q (create_subscription env req)) ->
  (method req = POST -> matches "/api/create-customer" (path req) = true ->
   Q (create_customer env req)) ->
  (forall segment e, customer_segment (path req) = Some segment ->
     decode_param env segment = inl e -> Q (Throw e)) ->
  (forall segment email, is_get (method req) = true ->
     customer_segment (path req) = Some segment -> decode_param env segment = inr email ->
     Q (get_customer env (mkRequest (method req) (path req) (ip req) (time req) (headers req)
                            [("email", JStr email)] (body req)))) ->
  (method req = POST -> matches "/api/cancel-subscription" (path req) = true ->
   Q (cancel_subscription env req)) ->
  (method req = POST -> matches "/api/webhooks/stripe" (path req) = true ->
   Q (webhooks_stripe env req)) ->
  Q (not_found req) ->
  Q (route env req).
Proof.
  intros Hh Ht Hpi Hs Hc Hd Hg Hx Hw Hn. unfold route. cbv zeta.
  assert (Hlast : Q (if is_post (method req) && matches "/api/cancel-subscription" (path req)
                     then cancel_subscription env req
                     else if is_post (method req) && matches "/api/webhooks/stripe" (path req)
                          then webhooks_stripe env req
                          else not_found req)).
  { repeat match goal with
           | |- Q (if ?b then _ else _) =>
               let E := fresh "E" in
               destruct b eqn:E;
               [ apply andb_prop in E as [Em Ep]; apply is_post_POST in Em; auto | clear E ]
           end.
    exact Hn. }
  repeat match goal with
         | |- Q (if ?b then _ else _) =>
             let E := fresh "E" in
             destruct b eqn:E;
             [ apply andb_prop in E as [Em Ep]; try apply is_post_POST in Em; auto | clear E ]
         end.
  destruct (customer_segment (path req)) as [segment|] eqn:Es; [|exact Hlast].
  destruct (decode_param env segment) as [e|email] eqn:Ed; cbn [lift bind].
  - eauto.
  - destruct (is_get (method req)) eqn:Eg; [eauto|exact Hlast].
Qed.

Lemma all_results_weaken {A} (P Q : A -> Prop) (p : Prog A) :
  (forall a, P a -> Q a) -> all_results P p -> all_results Q p.
Proof.
  intros HPQ. induction p as [a|e|c k IH|l k IH]; cbn [all_results]; auto.
Qed.

Lemma shaped_status codes codes' response :
  incl codes codes' -> shaped codes response -> In (status response) codes'.
Proof. intros Hincl [Hin _]. apply Hincl. exact Hin. Qed.

Lemma status_of_shape codes codes' (p : Prog Response) :
  forallb (fun code => existsb (Z.eqb code) codes') codes = true ->
  always_returns (shaped codes) p ->
  all_results (fun response => In (status response) codes') p.
Proof.
  intros Hincl Hp. apply always_returns_all.
  apply (always_returns_weaken (shaped codes)); [|exact Hp].
  intros response. apply shaped_status. intros code Hcode.
  rewrite forallb_forall in Hincl. specialize (Hincl code Hcode).
  apply existsb_exists in Hincl as (code' & Hin & Heq). apply Z.eqb_eq in Heq. subst. exact Hin.
Qed.

Lemma route_statuses env req :
  all_results (fun response => In (status response) [200; 400; 404; 500]) (route env req).
Proof.
  apply route_cases; intros.
  - cbn. tauto.
  - cbn. tauto.
  - apply (status_of_shape [200; 400; 500]); [reflexivity|apply create_payment_intent_returns].
  - apply (status_of_shape [200; 400; 500]); [reflexivity|apply create_subscription_returns].
  - apply (status_of_shape [200; 400; 500]); [reflexivity|apply create_customer_returns].
  - exact I.
  - apply (status_of_shape [200; 404; 500]); [reflexivity|apply get_customer_returns].
  - apply (status_of_shape [200; 400; 500]); [reflexivity|apply cancel_subscription_returns].
  - apply webhooks_stripe_results; intros; cbn; tauto.
  - cbn. tauto.
Qed.

Lemma app_cases env st req (Q : Prog Response -> Prop) :
  (is_options (method req) = true -> Q (Ret (Cors.preflight (origin req)))) ->
  (forall e, is_options (method req) = false -> decode_param env (path req) = inl e ->
   Q (error_middleware env e)) ->
  (is_options (method req) = false -> decodable env (path req) = true ->
   under_api (path req) = true ->
   snd (RateLimit.limiter st (ip req) (time req)) = Some RateLimit.rejection ->
   Q (Ret RateLimit.rejection)) ->
  (is_options (method req) = false -> decodable env (path req) = true ->
   (under_api (path req) = true -> snd (RateLimit.limiter st (ip req) (time req)) = None) ->
   Q (try_catch (route env req) (error_middleware env))) ->
  Q (snd (app env st req)).
Proof.
  intros Hp He Hr Hroute. unfold app, cors, decodable in *.
  destruct (is_options (method req)); [apply Hp; reflexivity|].
  destruct (decode_param env (path req)) as [e|decoded]; [apply He; reflexivity|].
  destruct (under_api (path req)).
  - unfold RateLimit.limiter in *. cbv zeta in *. cbn [snd] in *.
    destruct (_ <=? _); cbn [snd]; auto.
  - cbn [snd]. apply Hroute; [reflexivity|reflexivity|discriminate].
Qed.

(** X2.  The application answers every request, whatever its method, path
    and body and whatever the provider does: nothing escapes the layers of
    [server.js].  The status of the answer is 200, 400, 404, 429 or 500. *)
Theorem app_always_answers env st req stripe past :
  exists response,
    result (run stripe past (snd (app env st req))) = inr response /\
    In (status response) [200; 400; 404; 429; 500].
Proof.
  apply always_returns_run. apply app_cases.
  - intros _. cbn. tauto.
  - intros e _ _. cbn. tauto.
  - intros _ _ _ _. cbn. tauto.
  - intros _ _ _. apply always_returns_try_catch.
    + apply (all_results_weaken (fun response => In (status response) [200; 400; 404; 500]));
        [|apply route_statuses].
      intros response. cbn [In]. tauto.
    + intros e. cbn. tauto.
Qed.




(* ================================================================== *)
(** * Routing *)

Lemma strip_prefix_app a b s r :
  strip_prefix (a ++ b)%string s = Some r -> exists r', strip_prefix a s = Some r'.
Proof.
  revert s. induction a as [|c a IH]; intros s.
  - cbn [strip_prefix]. eauto.
  - change (String c a +:+ b) with (String c (a +:+ b)). cbn [strip_prefix].
    destruct s as [|d s]; [discriminate|]. destruct (Ascii.eqb c d); [apply IH|discriminate].
Qed.

Lemma strip_prefix_append pre s : strip_prefix pre (pre ++ s)%string = Some s.
Proof.
  induction pre as [|c pre IH]; [reflexivity|].
  change (String c pre +:+ s) with (String c (pre +:+ s)). cbn [strip_prefix].
  rewrite Ascii.eqb_refl. exact IH.
Qed.

Lemma strip_prefix_more pre s t r :
  strip_prefix pre s = Some r -> strip_prefix pre (s ++ t)%string = Some (r ++ t)%string.
Proof.
  revert s. induction pre as [|c pre IH]; intros s; cbn [strip_prefix].
  - intros H. injection H as ->. reflexivity.
  - destruct s as [|d s]; [discriminate|].
    change (String d s +:+ t) with (String d (s +:+ t)). cbn [strip_prefix].
    destruct (Ascii.eqb c d); [apply IH|discriminate].
Qed.

Lemma append_neq pre s other :
  strip_prefix pre other = None -> String.eqb (pre ++ s) other = false.
Proof.
  intros H. destruct (String.eqb (pre +:+ s) other) eqn:E; [|reflexivity].
  apply String.eqb_eq in E. subst other. rewrite strip_prefix_append in H. discriminate H.
Qed.

Lemma lower_app a b : lower (a ++ b) = (lower a ++ lower b)%string.
Proof.
  induction a as [|c a IH]; [reflexivity|].
  change (String c a +:+ b) with (String c (a +:+ b)). cbn [lower].
  change (String (lower_ascii c) (lower a) +:+ lower b)
    with (String (lower_ascii c) (lower a +:+ lower b)).
  rewrite IH. reflexivity.
Qed.

Lemma strip_prefix_ci_lower pre : forall p rest,
  strip_prefix_ci pre p = Some rest -> strip_prefix pre (lower p) = Some (lower rest).
Proof.
  induction pre as [|c pre IH]; intros p rest; cbn [strip_prefix_ci strip_prefix].
  - intros H. injection H as ->. reflexivity.
  - destruct p as [|d p]; [discriminate|]. cbn [lower].
    destruct (Ascii.eqb c (lower_ascii d)); [apply IH|discriminate].
Qed.

Lemma strip_prefix_ci_append fixed rest :
  strip_prefix_ci (lower fixed) (fixed ++ rest)%string = Some rest.
Proof.
  induction fixed as [|c fixed IH]; [reflexivity|].
  change (String c fixed +:+ rest) with (String c (fixed +:+ rest)).
  cbn [lower strip_prefix_ci]. rewrite Ascii.eqb_refl. exact IH.
Qed.

Lemma drop_slash_none s : has_slash s = false -> drop_slash s = s.
Proof.
  induction s as [|c s IH]; [reflexivity|]. cbn [has_slash drop_slash].
  intros H. apply orb_false_elim in H as [Hc Hs]. rewrite Hc. cbn [andb].
  rewrite (IH Hs). reflexivity.
Qed.

Lemma drop_slash_last s : has_slash s = false -> drop_slash (s ++ "/")%string = s.
Proof.
  induction s as [|c s IH]; [reflexivity|].
  change (String c s +:+ "/") with (String c (s +:+ "/")). cbn [has_slash drop_slash].
  intros H. apply orb_false_elim in H as [Hc Hs]. rewrite Hc. cbn [andb].
  rewrite (IH Hs). reflexivity.
Qed.

Lemma customer_segment_under_api p segment :
  customer_segment p = Some segment -> under_api p = true.
Proof.
  unfold customer_segment, under_api.
  destruct (strip_prefix_ci "/api/customer/" p) as [rest|] eqn:Hrest; [|discriminate].
  intros _. apply strip_prefix_ci_lower in Hrest.
  apply (strip_prefix_app "/api/" "customer/") in Hrest as [r' ->].
  apply orb_true_r.
Qed.

Lemma matches_under_api pattern p r :
  strip_prefix "/api/" pattern = Some r -> matches pattern p = true -> under_api p = true.
Proof.
  unfold matches, under_api. intros Hpattern H.
  apply orb_prop in H as [H|H]; apply String.eqb_eq in H; rewrite H.
  - rewrite Hpattern. apply orb_true_r.
  - rewrite (strip_prefix_more _ _ "/" _ Hpattern). apply orb_true_r.
Qed.

Lemma provider_route_under_api req : provider_route req = true -> under_api (path req) = true.
Proof.
  unfold provider_route. intros H. apply orb_prop in H as [H|H]; apply andb_prop in H as [_ H].
  - apply existsb_exists in H as (pattern & Hin & Hp).
    cbn [post_routes In] in Hin.
    repeat (destruct Hin as [<-|Hin];
            [eapply matches_under_api; [|exact Hp]; reflexivity|]).
    destruct Hin.
  - destruct (customer_segment (path req)) as [segment|] eqn:He; [|discriminate].
    apply (customer_segment_under_api _ _ He).
Qed.

Lemma route_provider env req stripe past :
  calls (run stripe past (try_catch (route env req) (error_middleware env))) <> [] ->
  provider_route req = true.
Proof.
  unfold provider_route.
  apply (route_cases env req
           (fun p => calls (run stripe past (try_catch p (error_middleware env))) <> [] -> _));
    try (intros Hm Hp _; cbn [post_routes existsb]; rewrite Hm, Hp; cbn [is_post andb orb];
         rewrite ?orb_true_r; reflexivity).
  - intros H. destruct H. reflexivity.
  - intros H. destruct H. reflexivity.
  - intros segment e _ _ H. destruct H. reflexivity.
  - intros segment email Hg He _ _. rewrite Hg, He. apply orb_true_r.
  - intros H. destruct H. reflexivity.
Qed.

(** X4.  The provider is only ever called behind the rate limiter: when
    the handling of a request makes a provider call, the request is for
    one of the six routes that use the provider (the five POST routes and
    the customer lookup, matched the router's way), its path is under
    [/api/], and the limiter has counted it and let it pass.  Preflights,
    [/health], [/api/test-cors], unknown routes, requests the router
    cannot decode and rejected requests never reach the provider. *)
Theorem provider_behind_limiter env st req stripe past :
  calls (run stripe past (snd (app env st req))) <> [] ->
  provider_route req = true /\
  under_api (path req) = true /\
  snd (RateLimit.limiter st (ip req) (time req)) = None.
Proof.
  apply (app_cases env st req
           (fun p => calls (run stripe past p) <> [] -> _)).
  - intros _ H. destruct H. reflexivity.
  - intros e _ _ H. destruct H. reflexivity.
  - intros _ _ _ _ H. destruct H. reflexivity.
  - intros _ _ Hpass Hcalls.
    assert (Hroute : provider_route req = true).
    { apply (route_provider env req stripe past). exact Hcalls. }
    pose proof (provider_route_under_api req Hroute) as Hapi. auto.
Qed.

Lemma provider_behind_limiter_witness :
  let req := Examples.post "/API/Create-Customer/" (JObj [("email", JStr "ada@example.com")]) in
  calls (run Examples.stripe_test [] (snd (app Examples.env0 ∅ req))) <> [] /\
  provider_route req = true /\
  under_api (path req) = true /\
  snd (RateLimit.limiter ∅ (ip req) (time req)) = None.
Proof.
  intros req.
  assert (H : calls (run Examples.stripe_test [] (snd (app Examples.env0 ∅ req))) <> [])
    by (vm_compute; discriminate).
  split; [exact H|].
  exact (provider_behind_limiter Examples.env0 ∅ req Examples.stripe_test [] H).
Defined.







Lemma customer_segment_of fixed segment slash :
  lower fixed = "/api/customer/" ->
  segment <> "" -> has_slash segment = false ->
  slash = "" \/ slash = "/" ->
  customer_segment (fixed ++ segment ++ slash) = Some segment.
Proof.
  intros Hfixed Hne Hslash Hend. unfold customer_segment.
  rewrite <- Hfixed, strip_prefix_ci_append.
  assert (Hdrop : drop_slash (segment +:+ slash) = segment).
  { destruct Hend as [-> | ->].
    - replace (segment +:+ "") with segment; [apply drop_slash_none; exact Hslash|].
      clear. induction segment as [|c s IH]; [reflexivity|].
      change (String c s +:+ "") with (String c (s +:+ "")). rewrite <- IH. reflexivity.
    - apply drop_slash_last. exact Hslash. }
  cbv zeta. rewrite Hdrop, Hslash. apply String.eqb_neq in Hne. rewrite Hne. reflexivity.
Qed.

Lemma matches_customer pattern fixed rest :
  lower fixed = "/api/customer/" ->
  strip_prefix "/api/customer/" pattern = None ->
  strip_prefix "/api/customer/" (pattern ++ "/") = None ->
  matches pattern (fixed ++ rest) = false.
Proof.
  intros Hfixed H1 H2. unfold matches. rewrite lower_app, Hfixed.
  rewrite (append_neq _ _ _ H1), (append_neq _ _ _ H2). reflexivity.
Qed.

(** X7.  The customer lookup is given the [:email] segment of the path,
    percent-decoded.  For every GET (or HEAD) request whose path is
    [/api/customer/], in any letter case, followed by a non-empty
    segment without a slash and possibly by one trailing slash, and
    whose segment the router can decode, the one provider call is a list
    of customers whose [email] is the decoded segment and whose [limit]
    is 1. *)
Theorem customer_route_email env stripe past req fixed segment slash email :
  is_get (method req) = true ->
  path req = (fixed ++ segment ++ slash)%string ->
  lower fixed = "/api/customer/" ->
  segment <> "" ->
  has_slash segment = false ->
  slash = "" \/ slash = "/" ->
  decode_param env segment = inr email ->
  calls (run stripe past (route env req))
  = [customers_list (JObj [("email", JStr email); ("limit", JNum 1%float)])].
Proof.
  intros Hm Hp Hfixed Hne Hslash Hend Hdecode. unfold route. cbv zeta. rewrite Hm, Hp.
  rewrite (customer_segment_of fixed segment slash Hfixed Hne Hslash Hend).
  rewrite !(matches_customer _ fixed (segment +:+ slash) Hfixed) by reflexivity.
  rewrite !andb_false_r. rewrite Hdecode. cbn [lift bind].
  unfold get_customer. eval_prog. cbn [params].
  rewrite (get_prop_value env Destructure (JObj [("email", JStr email)]) _ eq_refl).
  cbn [prop_value key_string]. rewrite lookup_field_head. eval_prog.
  destruct (stripe past _) as [e|customers]; eval_prog; [reflexivity|].
  finish_reads.
Qed.

Lemma customer_route_email_witness :
  let req := mkRequest GET "/API/customer/ada%40example.com/" "198.51.100.1" 0 [] []
               JUndefined in
  calls (run Examples.stripe_test [] (route Examples.env0 req))
  = [customers_list (JObj [("email", JStr "ada@example.com"); ("limit", JNum 1%float)])].
Proof.
  intros req.
  apply (customer_route_email Examples.env0 Examples.stripe_test [] req
           "/API/customer/" "ada%40example.com" "/" "ada@example.com");
    [reflexivity|reflexivity|reflexivity|discriminate|reflexivity|right; reflexivity
    |reflexivity].
Defined.

(* ================================================================== *)
(** * How many provider calls a request costs *)

Lemma at_most_calls_run {A} (p : Prog A) : forall n,
  at_most_calls n p ->
  forall stripe past, (List.length (calls (run stripe past p)) <= n)%nat.
Proof.
  induction p as [a|e|c k IH|l k IH]; intros n Hp stripe past; cbn [run calls List.length].
  - lia.
  - lia.
  - destruct n as [|n]; [destruct Hp|].
    specialize (IH _ n (Hp (stripe past c)) stripe (past ++ [c])). lia.
  - apply IH. exact Hp.
Qed.

Lemma at_most_calls_more {A} (p : Prog A) : forall n m,
  (n <= m)%nat -> at_most_calls n p -> at_most_calls m p.
Proof.
  induction p as [a|e|c k IH|l k IH]; intros n m Hnm Hp; cbn [at_most_calls] in *; auto.
  - destruct n as [|n]; [destruct Hp|]. destruct m as [|m]; [lia|].
    intros o. apply (IH o n m); [lia|apply Hp].
  - apply (IH n m); assumption.
Qed.

(** Binding a step that makes no call. *)
Lemma at_most_calls_bind {A B} (p : Prog A) (f : A -> Prog B) n :
  at_most_calls 0 p -> (forall a, at_most_calls n (f a)) -> at_most_calls n (bind p f).
Proof.
  intros Hp Hf. induction p as [a|e|c k IH|l k IH]; cbn [bind at_most_calls] in *; auto.
  destruct Hp.
Qed.

Lemma at_most_calls_bind_add {A B} (p : Prog A) (f : A -> Prog B) m : forall n,
  at_most_calls n p -> (forall a, at_most_calls m (f a)) ->
  at_most_calls (n + m) (bind p f).
Proof.
  induction p as [a|e|c k IH|l k IH]; intros n Hp Hf; cbn [bind at_most_calls] in *; auto.
  - apply (at_most_calls_more _ m); [lia|apply Hf].
  - destruct n as [|n]; [destruct Hp|]. cbn [Nat.add]. intros o. apply IH; auto.
Qed.

(** Binding an awaited provider call. *)
Lemma at_most_calls_await {B} c (f : JsValue -> Prog B) n :
  (forall a, at_most_calls n (f a)) -> at_most_calls (S n) (bind (await c) f).
Proof.
  intros Hf. unfold await. cbn [bind at_most_calls]. intros [e|a]; cbn [lift bind at_most_calls]; auto.
Qed.

Lemma at_most_calls_try_catch {A} (p : Prog A) (h : JsError -> Prog A) : forall n,
  at_most_calls n p -> (forall e, at_most_calls 0 (h e)) -> at_most_calls n (try_catch p h).
Proof.
  induction p as [a|e|c k IH|l k IH]; intros n Hp Hh; cbn [try_catch at_most_calls] in *; auto.
  - apply (at_most_calls_more _ 0%nat); [lia|apply Hh].
  - destruct n as [|n]; [destruct Hp|]. intros o. apply IH; auto.
Qed.

Lemma at_most_calls_lift {A} (c : Completion A) n : at_most_calls n (lift c).
Proof. destruct c; exact I. Qed.

Ltac count_calls :=
  repeat first
    [ exact I
    | progress intros
    | progress (unfold destructure_or, destructure, dot)
    | match goal with
      | |- at_most_calls _ (lift _) => apply at_most_calls_lift
      | |- at_most_calls _ (try_catch _ _) => apply at_most_calls_try_catch
      | |- at_most_calls _ (bind (await _) _) => apply at_most_calls_await
      | |- at_most_calls _ (bind (if ?b then _ else _) _) => destruct b
      | |- at_most_calls _ (bind _ _) => apply at_most_calls_bind; [solve [count_calls]|]
      | |- at_most_calls _ (if ?b then _ else _) => destruct b
      | |- at_most_calls _ (match ?x with inl _ => _ | inr _ => _ end) => destruct x
      | |- at_most_calls _ (match ?x with Some _ => _ | None => _ end) => destruct x
      end
    | progress (cbn [at_most_calls emit server_error bind]) ].

Lemma dispatch_event_no_call env event : at_most_calls 0 (dispatch_event env event).
Proof. unfold dispatch_event. count_calls. Qed.

Lemma route_calls env req :
  at_most_calls
    (if is_post (method req) && matches "/api/create-subscription" (path req)
     then 3 else 1)
    (route env req).
Proof.
  apply route_cases.
  - destruct (_ && _); exact I.
  - destruct (_ && _); exact I.
  - intros _ _. apply (at_most_calls_more _ 1%nat); [destruct (_ && _); lia|].
    unfold create_payment_intent. count_calls.
  - intros -> ->. cbn [is_post andb].
    unfold create_subscription, subscription_reply. count_calls.
    apply (at_most_calls_bind_add _ _ 1 2); count_calls.
  - intros _ _. apply (at_most_calls_more _ 1%nat); [destruct (_ && _); lia|].
    unfold create_customer. count_calls.
  - intros. exact I.
  - intros segment email _ _ _. apply (at_most_calls_more _ 1%nat); [destruct (_ && _); lia|].
    unfold get_customer. count_calls.
  - intros _ _. apply (at_most_calls_more _ 1%nat); [destruct (_ && _); lia|].
    unfold cancel_subscription. count_calls.
  - intros _ _. apply (at_most_calls_more _ 1%nat); [destruct (_ && _); lia|].
    unfold webhooks_stripe, await. cbn [try_catch bind at_most_calls lift].
    intros [err|event]; cbn [try_catch bind at_most_calls lift emit].
    + destruct (ToString env (message err)); exact I.
    + apply at_most_calls_bind; [apply dispatch_event_no_call|]. intros. exact I.
  - destruct (_ && _); exact I.
Qed.

Lemma app_calls env st req :
  at_most_calls
    (if is_post (method req) && matches "/api/create-subscription" (path req)
     then 3 else 1)
    (snd (app env st req)).
Proof.
  apply app_cases; intros; try exact I.
  apply at_most_calls_try_catch; [apply route_calls|]. intros e'. exact I.
Qed.

(** X8.  Handling one request costs at most three provider calls, and at
    most one unless the request is a POST whose path matches
    [/api/create-subscription] (in any letter case, with or without a
    trailing slash). *)
Theorem at_most_three_calls env st req stripe past :
  let n := List.length (calls (run stripe past (snd (app env st req)))) in
  (n <= 3)%nat /\
  ((1 < n)%nat ->
   method req = POST /\ matches "/api/create-subscription" (path req) = true).
Proof.
  intros n. pose proof (at_most_calls_run _ _ (app_calls env st req) stripe past) as H.
  fold n in H.
  destruct (is_post (method req) && matches "/api/create-subscription" (path req)) eqn:E.
  - split; [exact H|]. intros _. apply andb_prop in E as [Hm Hp].
    apply is_post_POST in Hm. auto.
  - split; [lia|]. intros Hn. lia.
Qed.

(* ================================================================== *)
(** * create-payment-intent: the whole contract *)

Lemma nan_spec (a : float) : PrimFloat.is_nan a = true -> Prim2SF a = S754_nan.
Proof.
  unfold PrimFloat.is_nan. rewrite FloatAxioms.eqb_spec.
  destruct (Prim2SF a) as [s|s| |s m e].
  - destruct s; cbn; discriminate.
  - destruct s; cbn; discriminate.
  - reflexivity.
  - unfold SFeqb. rewrite SFcompare_refl_finite. discriminate.
Qed.

Lemma nan_lt (a b : float) : PrimFloat.is_nan a = true -> (a <? b)%float = false.
Proof. intros H. rewrite FloatAxioms.ltb_spec, (nan_spec a H). reflexivity. Qed.

Lemma nan_mul (a b : float) : PrimFloat.is_nan a = true -> Prim2SF (a * b) = S754_nan.
Proof. intros H. rewrite mul_spec, (nan_spec a H). reflexivity. Qed.

Lemma spec_nan (a : float) : Prim2SF a = S754_nan -> PrimFloat.is_nan a = true.
Proof. intros H. unfold PrimFloat.is_nan. rewrite FloatAxioms.eqb_spec, H. reflexivity. Qed.

Lemma Math_round_nan (x : float) : Prim2SF x = S754_nan -> Math_round x = x.
Proof. intros H. unfold Math_round. rewrite H. reflexivity. Qed.

(** The request on the console, then the one provider call. *)
Lemma create_payment_intent_accepted env stripe past req a :
  nullish (body req) = false ->
  ToBoolean (member (body req) "amount") = true ->
  ToNumber env (member (body req) "amount") = inr a ->
  (a <? 0.5)%float = false ->
  let c := paymentIntents_create
             (JObj [("amount", JNum (Math_round (a * 100)));
                    ("currency", or_default (member (body req) "currency") (JStr "usd"));
                    ("metadata", or_default (member (body req) "metadata") (JObj []));
                    ("automatic_payment_methods", JObj [("enabled", JBool true)])]) in
  let r := run stripe past (create_payment_intent env req) in
  calls r = [c] /\
  (forall paymentIntent,
     stripe past c = inr paymentIntent -> nullish paymentIntent = false ->
     result r = inr (res_json 200
                       (JObj [("clientSecret", member paymentIntent "client_secret");
                              ("paymentIntentId", member paymentIntent "id")])) /\
     console r = [console_log [JStr "Create payment intent request from origin:";
                               origin req]]).
Proof.
  intros Hbody Htruthy Hnum Hlt c r. subst r c.
  unfold create_payment_intent, member in *. eval_prog.
  read_from (body req) Hbody. rewrite Htruthy. eval_prog.
  unfold lt_number, mul_number. rewrite Hnum, Hlt. eval_prog.
  split.
  - destruct (stripe past _) as [e|paymentIntent]; eval_prog; [reflexivity|].
    destruct_reads; reflexivity.
  - intros paymentIntent Hc Hpi. rewrite Hc. eval_prog.
    read_from paymentIntent Hpi. split; reflexivity.
Qed.

(** X9.  For every create-payment-intent request whose amount passes the
    check (it is truthy, and as a number it is not below 0.50; the amount
    may be a numeric string), the handler makes one provider call.  Its
    parameters are the amount times 100 through [Math.round], the
    request's [currency], or "usd" when the request has none, the
    request's [metadata], or [{}] when it has none, and
    [automatic_payment_methods: { enabled: true }].  A default is used
    only for a field that is absent: a [null] is passed on as it is.  When
    the provider resolves with a payment intent, the answer is 200 with
    that intent's [client_secret] and [id], and the console shows the
    request line only. *)
Theorem create_payment_intent_contract env stripe past req a :
  nullish (body req) = false ->
  let amount := member (body req) "amount" in
  ToBoolean amount = true ->
  ToNumber env amount = inr a ->
  (a <? 0.5)%float = false ->
  let c := paymentIntents_create
             (JObj [("amount", JNum (Math_round (a * 100)));
                    ("currency", or_default (member (body req) "currency") (JStr "usd"));
                    ("metadata", or_default (member (body req) "metadata") (JObj []));
                    ("automatic_payment_methods", JObj [("enabled", JBool true)])]) in
  let r := run stripe past (create_payment_intent env req) in
  calls r = [c] /\
  (forall paymentIntent,
     stripe past c = inr paymentIntent -> nullish paymentIntent = false ->
     result r = inr (res_json 200
                       (JObj [("clientSecret", member paymentIntent "client_secret");
                              ("paymentIntentId", member paymentIntent "id")])) /\
     console r = [console_log [JStr "Create payment intent request from origin:";
                               origin req]]).
Proof.
  intros Hbody amount Htruthy Hnum Hlt.
  exact (create_payment_intent_accepted env stripe past req a Hbody Htruthy Hnum Hlt).
Qed.

Lemma create_payment_intent_contract_witness :
  let req := Examples.post "/api/create-payment-intent"
               (JObj [("amount", JNum 19.99%float); ("currency", JNull)]) in
  let r := run Examples.stripe_test [] (create_payment_intent Examples.env0 req) in
  calls r = [paymentIntents_create
               (JObj [("amount", JNum 1999%float); ("currency", JNull);
                      ("metadata", JObj []);
                      ("automatic_payment_methods", JObj [("enabled", JBool true)])])] /\
  result r = inr (res_json 200 (JObj [("clientSecret", JStr "pi_1_secret");
                                      ("paymentIntentId", JStr "pi_1")])).
Proof.
  intros req r.
  destruct (create_payment_intent_contract Examples.env0 Examples.stripe_test [] req
              19.99%float eq_refl eq_refl eq_refl eq_refl) as [Hcalls Hanswer].
  split; [exact Hcalls|].
  exact (proj1 (Hanswer _ eq_refl eq_refl)).
Defined.

(** X10.  The amount check lets values through that are no amounts: a
    request whose amount is truthy and converts to [NaN] (a non-numeric
    string, for one) is not answered 400, since a comparison with [NaN] is
    false.  The provider is called once, and the [amount] it is given is
    [NaN]. *)
Theorem create_payment_intent_nan env stripe past req a :
  nullish (body req) = false ->
  let amount := member (body req) "amount" in
  ToBoolean amount = true ->
  ToNumber env amount = inr a ->
  PrimFloat.is_nan a = true ->
  exists x,
    List.map amount_sent (calls (run stripe past (create_payment_intent env req))) = [JNum x] /\
    PrimFloat.is_nan x = true.
Proof.
  intros Hbody amount Htruthy Hnum Hnan.
  destruct (create_payment_intent_accepted env stripe past req a Hbody Htruthy Hnum
              (nan_lt a _ Hnan)) as [Hcalls _].
  cbv zeta in Hcalls. rewrite Hcalls.
  exists (Math_round (a * 100)). split.
  - cbn [List.map amount_sent]. unfold member at 1.
    cbn [prop_value key_string]. rewrite lookup_field_head. reflexivity.
  - rewrite (Math_round_nan _ (nan_mul a 100 Hnan)). apply spec_nan. apply nan_mul. exact Hnan.
Qed.

Lemma create_payment_intent_nan_witness :
  let req := Examples.post "/api/create-payment-intent" (JObj [("amount", JStr "a lot")]) in
  exists x,
    List.map amount_sent
      (calls (run Examples.stripe_test [] (create_payment_intent Examples.env0 req)))
    = [JNum x] /\
    PrimFloat.is_nan x = true.
Proof.
  intros req.
  exact (create_payment_intent_nan Examples.env0 Examples.stripe_test [] req nan
           eq_refl eq_refl eq_refl eq_refl).
Defined.

(* ================================================================== *)
(** * create-subscription without a payment method, cancel-subscription *)

(** X11.  For every create-subscription request: when the customer id or
    the price id is missing (or otherwise falsy) the answer is 400, no
    provider call is made and nothing is logged, payment method or not;
    when both are present and the request has no payment method, the one
    provider call is the creation of the subscription, nothing is attached
    and no customer is updated, and when the provider resolves with a
    subscription from which the client secret can be read the answer is
    200 with the subscription's id and that secret. *)
Theorem create_subscription_plain env stripe past req :
  nullish (body req) = false ->
  let customerId := member (body req) "customerId" in
  let priceId := member (body req) "priceId" in
  let paymentMethodId := member (body req) "paymentMethodId" in
  let create := subscribe_call customerId priceId in
  let r := run stripe past (create_subscription env req) in
  (ToBoolean customerId = false \/ ToBoolean priceId = false ->
     r = mkRun [] [] (inr (error_answer 400 "Customer ID and Price ID are required"))) /\
  (ToBoolean customerId = true -> ToBoolean priceId = true ->
   ToBoolean paymentMethodId = false ->
     calls r = [create] /\
     forall subscription reply,
       stripe past create = inr subscription ->
       read_client_secret env subscription = inr reply ->
       result r = inr (subscription_created reply) /\ console r = []).
Proof.
  intros Hbody customerId priceId paymentMethodId create r. subst r.
  rewrite (create_subscription_run env stripe past req Hbody).
  fold customerId priceId paymentMethodId. unfold create_subscription_outcome.
  split.
  - intros [Hc|Hp]; [rewrite Hc|rewrite Hp]; cbn [negb orb]; rewrite ?orb_true_r; reflexivity.
  - intros Hc Hp Hpm. rewrite Hc, Hp, Hpm. cbn [negb orb]. cbv zeta.
    fold create. unfold subscribe_outcome. rewrite List.app_nil_r. cbn [List.app].
    split.
    + destruct (stripe past create) as [e|subscription]; [reflexivity|].
      destruct (read_client_secret env subscription); reflexivity.
    + intros subscription reply Hs Hreply. rewrite Hs, Hreply. split; reflexivity.
Qed.

Lemma create_subscription_plain_witness :
  let r := run Examples.stripe_test [] (create_subscription Examples.env0 Examples.subscribe) in
  calls r = [subscribe_call (JStr "cus_1") (JStr "price_1")] /\
  result r = inr (subscription_created (JStr "sub_1", JStr "pi_2_secret")).
Proof.
  intros r.
  destruct (proj2 (create_subscription_plain Examples.env0 Examples.stripe_test []
                     Examples.subscribe eq_refl) eq_refl eq_refl eq_refl)
    as [Hcalls Hanswer].
  split; [exact Hcalls|].
  exact (proj1 (Hanswer _ (JStr "sub_1", JStr "pi_2_secret") eq_refl eq_refl)).
Defined.

(** X12.  For every cancel-subscription request: without a subscription id
    the answer is 400, no provider call is made and nothing is logged;
    with one, when the provider resolves with the updated subscription the
    answer is 200 and relays that subscription's [id],
    [cancel_at_period_end] and [current_period_end] as the provider gave
    them, after the one call and with nothing logged. *)
Theorem cancel_subscription_contract env stripe past req :
  nullish (body req) = false ->
  let subscriptionId := member (body req) "subscriptionId" in
  let c := subscriptions_update subscriptionId (JObj [("cancel_at_period_end", JBool true)]) in
  let r := run stripe past (cancel_subscription env req) in
  (ToBoolean subscriptionId = false ->
     r = mkRun [] [] (inr (error_answer 400 "Subscription ID is required"))) /\
  (ToBoolean subscriptionId = true ->
     forall subscription,
       stripe past c = inr subscription -> nullish subscription = false ->
       r = mkRun [c] []
             (inr (res_json 200
                     (JObj [("subscriptionId", member subscription "id");
                            ("cancelAtPeriodEnd", member subscription "cancel_at_period_end");
                            ("currentPeriodEnd", member subscription "current_period_end")])))).
Proof.
  intros Hbody subscriptionId c r. subst r c.
  unfold cancel_subscription, member in *. eval_prog.
  read_from (body req) Hbody. fold subscriptionId.
  split; intros Hid; rewrite Hid; eval_prog; [reflexivity|].
  intros subscription Hc Hs. rewrite Hc. eval_prog.
  read_from subscription Hs. reflexivity.
Qed.

Lemma cancel_subscription_contract_witness :
  let req := Examples.post "/api/cancel-subscription"
               (JObj [("subscriptionId", JStr "sub_123")]) in
  run Examples.stripe_test [] (cancel_subscription Examples.env0 req)
  = mkRun [subscriptions_update (JStr "sub_123") (JObj [("cancel_at_period_end", JBool true)])]
      []
      (inr (res_json 200 (JObj [("subscriptionId", JStr "sub_123");
                                ("cancelAtPeriodEnd", JBool true);
                                ("currentPeriodEnd", JNum 1700000000%float)]))).
Proof.
  intros req.
  exact (proj2 (cancel_subscription_contract Examples.env0 Examples.stripe_test [] req eq_refl)
           eq_refl _ eq_refl eq_refl).
Defined.

(* ================================================================== *)
(** * Provider failures *)

Ltac relay_leaf :=
  let Hcalls := fresh "Hcalls" in
  let Hrej := fresh "Hrej" in
  intros Hcalls Hrej; cbn [calls console result List.app] in *;
  match type of Hcalls with
  | _ = ?pre ++ _ => destruct pre as [|? [|? [|? [|? ?]]]]
  end;
  cbn [List.app] in Hcalls, Hrej; try discriminate Hcalls;
  inversion Hcalls; subst; clear Hcalls;
  rewrite ?List.app_nil_r in Hrej;
  first
    [ congruence
    | match goal with
      | H : _ = inl ?e0 |- _ =>
          rewrite H in Hrej; injection Hrej as <-;
          split; [reflexivity|split; [reflexivity|]];
          first [ exists []; reflexivity | eexists [_]; reflexivity ]
      end ].

Ltac relay_walk stripe past :=
  repeat (eval_prog;
          match goal with
          | |- context [get_prop ?env ?a ?v ?k] => destruct (get_prop env a v k)
          | |- context [ToBoolean ?v] => destruct (ToBoolean v)
          | |- context [lt_number ?env ?v ?n] => destruct (lt_number env v n) as [?|[|]]
          | |- context [mul_number ?env ?v ?n] => destruct (mul_number env v n)
          | |- context [strict_equals_number ?v ?n] => destruct (strict_equals_number v n)
          | |- context [stripe past ?c] => destruct (stripe past c) eqn:?
          end);
  eval_prog.

Lemma create_payment_intent_relays env stripe past req :
  relays_failure stripe past "Payment intent creation failed:"
    "Failed to create payment intent" (run stripe past (create_payment_intent env req)).
Proof.
  unfold relays_failure. intros pre c rest e. unfold create_payment_intent.
  relay_walk stripe past; relay_leaf.
Qed.

Lemma create_customer_relays env stripe past req :
  relays_failure stripe past "Customer creation failed:"
    "Failed to create customer" (run stripe past (create_customer env req)).
Proof.
  unfold relays_failure. intros pre c rest e. unfold create_customer.
  relay_walk stripe past; relay_leaf.
Qed.

Lemma get_customer_relays env stripe past req :
  relays_failure stripe past "Customer retrieval failed:"
    "Failed to retrieve customer" (run stripe past (get_customer env req)).
Proof.
  unfold relays_failure. intros pre c rest e. unfold get_customer.
  relay_walk stripe past; relay_leaf.
Qed.

Lemma cancel_subscription_relays env stripe past req :
  relays_failure stripe past "Subscription cancellation failed:"
    "Failed to cancel subscription" (run stripe past (cancel_subscription env req)).
Proof.
  unfold relays_failure. intros pre c rest e. unfold cancel_subscription.
  relay_walk stripe past; relay_leaf.
Qed.

Lemma create_subscription_relays env stripe past req :
  relays_failure stripe past "Subscription creation failed:"
    "Failed to create subscription" (run stripe past (create_subscription env req)).
Proof.
  unfold relays_failure. intros pre c rest e.
  destruct (nullish (body req)) eqn:Hbody.
  - unfold create_subscription. eval_prog.
    rewrite (get_prop_nullish env Destructure (body req) _ Hbody). eval_prog. relay_leaf.
  - rewrite (create_subscription_run env stripe past req Hbody).
    unfold create_subscription_outcome, subscribe_outcome, subscription_failed, failure_log.
    cbv zeta.
    destruct (negb _ || negb _); [relay_leaf|].
    destruct (ToBoolean _).
    + destruct (stripe past _) eqn:?; [relay_leaf|].
      destruct (stripe (past ++ [_]) _) eqn:?; [relay_leaf|].
      destruct (stripe (past ++ [_; _]) _) eqn:?; [relay_leaf|].
      destruct (read_client_secret env _); relay_leaf.
    + rewrite List.app_nil_r.
      destruct (stripe past _) eqn:?; [relay_leaf|].
      destruct (read_client_secret env _); relay_leaf.
Qed.

(** X13.  Every async handler relays a provider failure in the same way.
    For each of create-payment-intent, create-subscription,
    create-customer, the customer lookup and cancel-subscription: when
    the provider rejects a call of the handler with an error, the handler
    makes no further call, the answer is 500 with the handler's own
    [error] text and the provider error's message as [message], and the
    last thing written to the console is the handler's failure line with
    the error. *)
Theorem provider_failure_relayed env stripe past req :
  Forall (fun entry =>
            relays_failure stripe past (fst (snd entry)) (snd (snd entry))
              (run stripe past (fst entry req)))
    (async_handlers env).
Proof.
  unfold async_handlers.
  constructor; [exact (create_payment_intent_relays env stripe past req)|].
  constructor; [exact (create_subscription_relays env stripe past req)|].
  constructor; [exact (create_customer_relays env stripe past req)|].
  constructor; [exact (get_customer_relays env stripe past req)|].
  constructor; [exact (cancel_subscription_relays env stripe past req)|].
  constructor.
Qed.

(* ================================================================== *)
(** * The webhook and the error middleware *)

Lemma run_try_catch {A} stripe past (p : Prog A) (h : JsError -> Prog A) :
  run stripe past (try_catch p h) =
  let r := run stripe past p in
  match result r with
  | inl e =>
      let r' := run stripe (past ++ calls r) (h e) in
      mkRun (calls r ++ calls r') (console r ++ console r') (result r')
  | inr a => mkRun (calls r) (console r) (inr a)
  end.
Proof.
  revert past. induction p as [a|e|c k IH|l k IH]; intros past;
    cbn [try_catch run calls console result].
  - reflexivity.
  - cbv zeta. rewrite List.app_nil_r. cbn [List.app]. destruct (run stripe past (h e)); reflexivity.
  - rewrite IH. cbv zeta. destruct (result (run stripe (past ++ [c]) (k (stripe past c))));
      cbn [calls console result]; [|reflexivity].
    rewrite <- List.app_assoc. reflexivity.
  - rewrite IH. cbv zeta. destruct (result (run stripe past k));
      cbn [calls console result]; reflexivity.
Qed.

(** The [switch] on an event it cannot process: a [TypeError] before
    anything is logged. *)
Lemma run_dispatch_unprocessable env stripe past event :
  dispatchable event = false ->
  exists v k,
    run stripe past (dispatch_event env event) = mkRun [] [] (inl (TypeError env Read v k)).
Proof.
  unfold dispatchable, member. intros H. unfold dispatch_event. eval_prog.
  destruct (nullish event) eqn:Hevent.
  { rewrite (get_prop_nullish env Read event _ Hevent). eval_prog. eauto. }
  cbn [negb andb] in H. read_from event Hevent.
  destruct (select_case (prop_value event (Named "type"))); [|discriminate H].
  apply negb_false_iff in H. eval_prog.
  destruct (nullish (prop_value event (Named "data"))) eqn:Hdata.
  { rewrite (get_prop_nullish env Read _ _ Hdata). eval_prog. eauto. }
  read_from (prop_value event (Named "data")) Hdata.
  rewrite (get_prop_nullish env Read _ _ H). eval_prog. eauto.
Qed.

(** The [switch] on an event it can read but whose type, none of the
    seven, cannot be turned into a string. *)
Lemma run_dispatch_unprintable env stripe past event :
  dispatchable event = true -> processable env event = false ->
  exists e, run stripe past (dispatch_event env event) = mkRun [] [] (inl e).
Proof.
  unfold processable. intros Hd H. rewrite Hd in H. cbn [andb] in H.
  unfold dispatchable in Hd. apply andb_prop in Hd as [Hevent _].
  apply negb_true_iff in Hevent. unfold member in H.
  unfold dispatch_event. eval_prog. read_from event Hevent.
  destruct (select_case (prop_value event (Named "type"))); [discriminate H|].
  eval_prog. read_from event Hevent.
  destruct (ToString env (prop_value event (Named "type"))) as [e|text]; [|discriminate H].
  eval_prog. eauto.
Qed.

Lemma run_webhooks_stripe env stripe past req :
  let c := webhooks_constructEvent (body req) (lookup_field "stripe-signature" (headers req))
             (STRIPE_WEBHOOK_SECRET env) in
  run stripe past (webhooks_stripe env req) =
  match stripe past c with
  | inl err =>
      mkRun [c] [console_error [JStr "Webhook signature verification failed:"; message err]]
        match ToString env (message err) with
        | inl e => inl e
        | inr text => inr (res_send 400 (JStr ("Webhook Error: " ++ text)))
        end
  | inr event =>
      let r := run stripe (past ++ [c]) (dispatch_event env event) in
      mkRun (c :: calls r) (console r)
        match result r with
        | inl e => inl e
        | inr _ => inr (res_json 200 (JObj [("received", JBool true)]))
        end
  end.
Proof.
  intros c. unfold webhooks_stripe. eval_prog. fold c.
  destruct (stripe past c) as [err|event]; eval_prog.
  { destruct (ToString env (message err)); eval_prog; reflexivity. }
  rewrite run_bind. cbv zeta.
  destruct (result (run stripe (past ++ [c]) (dispatch_event env event))) as [e|[]];
    cbn [run calls console result]; [reflexivity|].
  rewrite !List.app_nil_r. reflexivity.
Qed.

(** X14.  A webhook whose signature verifies but whose event the [switch]
    cannot process (the event is [null], or its type is one of the seven
    cases and it has no [data.object]) is not acknowledged.  The handler
    throws a [TypeError] after its one provider call, before anything is
    logged; the error middleware logs it and answers 500 "Internal server
    error", and the answer's [message] is the error's own message only
    when [NODE_ENV] is "development", "Something went wrong" otherwise. *)
Theorem webhook_unprocessable_event env stripe past req event :
  let c := webhooks_constructEvent (body req) (lookup_field "stripe-signature" (headers req))
             (STRIPE_WEBHOOK_SECRET env) in
  stripe past c = inr event ->
  dispatchable event = false ->
  exists v k,
    let e := TypeError env Read v k in
    run stripe past (webhooks_stripe env req) = mkRun [c] [] (inl e) /\
    run stripe past (try_catch (webhooks_stripe env req) (error_middleware env))
    = mkRun [c] [console_error [JStr "Unhandled error:"; error_object e]]
        (inr (res_json 500
                (JObj [("error", JStr "Internal server error");
                       ("message", shown_message env e)]))).
Proof.
  intros c Hc Hevent.
  destruct (run_dispatch_unprocessable env stripe (past ++ [c]) event Hevent) as (v & k & Hrun).
  exists v, k. cbv zeta.
  assert (Hhandler : run stripe past (webhooks_stripe env req)
                     = mkRun [c] [] (inl (TypeError env Read v k))).
  { rewrite run_webhooks_stripe. fold c. rewrite Hc. cbv zeta. rewrite Hrun. reflexivity. }
  split; [exact Hhandler|].
  rewrite run_try_catch, Hhandler. cbv zeta. cbn [result calls console].
  unfold error_middleware. eval_prog. reflexivity.
Qed.

Lemma webhook_unprocessable_event_witness :
  let event := JObj [("type", JStr "invoice.payment_failed"); ("data", JObj [])] in
  let req := Examples.webhook (JStr "t=1,v1=good") event in
  exists v k,
    let e := TypeError Examples.env0 Read v k in
    run Examples.stripe_test [] (webhooks_stripe Examples.env0 req)
    = mkRun [webhooks_constructEvent event (JStr "t=1,v1=good") (JStr "whsec_test")] []
        (inl e) /\
    run Examples.stripe_test []
      (try_catch (webhooks_stripe Examples.env0 req) (error_middleware Examples.env0))
    = mkRun [webhooks_constructEvent event (JStr "t=1,v1=good") (JStr "whsec_test")]
        [console_error [JStr "Unhandled error:"; error_object e]]
        (inr (res_json 500
                (JObj [("error", JStr "Internal server error");
                       ("message", JStr "Something went wrong")]))).
Proof.
  intros event req.
  exact (webhook_unprocessable_event Examples.env0 Examples.stripe_test [] req event
           eq_refl eq_refl).
Defined.

(** X15.  The webhook acknowledges verified events only.  Whenever a
    webhook request is answered 200, by the handler or after it by the
    error middleware, the provider's signature verification of the
    request's body, signature header and configured secret has succeeded
    and yielded an event the [switch] could process, and the answer is
    [{received: true}]. *)
Theorem webhook_acknowledges_verified_only env stripe past req response :
  let c := webhooks_constructEvent (body req) (lookup_field "stripe-signature" (headers req))
             (STRIPE_WEBHOOK_SECRET env) in
  let r := run stripe past (try_catch (webhooks_stripe env req) (error_middleware env)) in
  result r = inr response ->
  status response = 200 ->
  response = res_json 200 (JObj [("received", JBool true)]) /\
  exists event, stripe past c = inr event /\ dispatchable event = true.
Proof.
  intros c r. subst r. rewrite run_try_catch, run_webhooks_stripe. fold c. cbv zeta.
  destruct (stripe past c) as [err|event] eqn:Hc; cbn [result calls console].
  - destruct (ToString env (message err)); cbn [result calls console];
      unfold error_middleware; eval_prog;
      intros Hr Hs; injection Hr as <-; discriminate Hs.
  - destruct (dispatchable event) eqn:Hevent.
    + destruct (processable env event) eqn:Hprocessable.
      * rewrite (run_dispatch_event env stripe (past ++ [c]) event Hprocessable).
        cbn [result calls console]. intros Hr _. injection Hr as <-.
        split; [reflexivity|]. exists event. split; [reflexivity|exact Hevent].
      * destruct (run_dispatch_unprintable env stripe (past ++ [c]) event Hevent
                    Hprocessable) as (e & Hrun).
        rewrite Hrun. cbn [result calls console]. unfold error_middleware. eval_prog.
        intros Hr Hs. injection Hr as <-. discriminate Hs.
    + destruct (run_dispatch_unprocessable env stripe (past ++ [c]) event Hevent)
        as (v & k & Hrun).
      rewrite Hrun. cbn [result calls console]. unfold error_middleware. eval_prog.
      intros Hr Hs. injection Hr as <-. discriminate Hs.
Qed.

Lemma webhook_acknowledges_verified_only_witness :
  let req := Examples.webhook (JStr "t=1,v1=good") Examples.succeeded in
  let c := webhooks_constructEvent Examples.succeeded (JStr "t=1,v1=good")
             (JStr "whsec_test") in
  let r := run Examples.stripe_test []
             (try_catch (webhooks_stripe Examples.env0 req)
                (error_middleware Examples.env0)) in
  result r = inr (res_json 200 (JObj [("received", JBool true)])) /\
  exists event, Examples.stripe_test [] c = inr event /\ dispatchable event = true.
Proof.
  intros req c r. split; [reflexivity|].
  exact (proj2 (webhook_acknowledges_verified_only Examples.env0 Examples.stripe_test [] req
                  (res_json 200 (JObj [("received", JBool true)])) eq_refl eq_refl)).
Defined.

(** X16.  What the webhook writes to the console for a verified event
    that is neither [null] nor [undefined] is one line: for an event
    whose type is one of the seven cases and which carries a
    [data.object], the text of that case followed by the id of the
    object and nothing else of the event; for an event of any other type
    that can be turned into a string, "Unhandled event type " followed by
    that string. *)
Theorem webhook_log_line env stripe past req event :
  let c := webhooks_constructEvent (body req) (lookup_field "stripe-signature" (headers req))
             (STRIPE_WEBHOOK_SECRET env) in
  let type := member event "type" in
  let r := run stripe past (webhooks_stripe env req) in
  stripe past c = inr event ->
  nullish event = false ->
  (forall label,
     select_case type = Some label ->
     nullish (member (member event "data") "object") = false ->
     console r
     = [console_log [JStr label; member (member (member event "data") "object") "id"]]) /\
  (forall text,
     select_case type = None ->
     ToString env type = inr text ->
     console r = [console_log [JStr ("Unhandled event type " ++ text)]]).
Proof.
  intros c type r Hc Hevent. subst r. rewrite run_webhooks_stripe. fold c. rewrite Hc. cbv zeta.
  cbn [console].
  split.
  - intros label Hlabel Hobject.
    rewrite run_dispatch_event.
    + fold type. rewrite Hlabel. reflexivity.
    + unfold processable, dispatchable. fold type. rewrite Hevent, Hlabel, Hobject. reflexivity.
  - intros text Hnone Htext.
    rewrite run_dispatch_event.
    + fold type. rewrite Hnone, Htext. reflexivity.
    + unfold processable, dispatchable. fold type. rewrite Hevent, Hnone, Htext. reflexivity.
Qed.

Lemma webhook_log_line_witness :
  let req := Examples.webhook (JStr "t=1,v1=good") Examples.succeeded in
  console (run Examples.stripe_test [] (webhooks_stripe Examples.env0 req))
  = [console_log [JStr "Payment succeeded:"; JStr "pi_1"]].
Proof.
  intros req.
  exact (proj1 (webhook_log_line Examples.env0 Examples.stripe_test [] req Examples.succeeded
                  eq_refl eq_refl) _ eq_refl eq_refl).
Defined.

(* ================================================================== *)
(** * What the provider is asked *)

Ltac shape_calls :=
  repeat first
    [ exact I
    | progress intros
    | match goal with
      | |- all_calls _ (lift _) => apply all_calls_lift
      | |- all_calls _ (try_catch _ _) => apply all_calls_try_catch
      | |- all_calls _ (bind _ _) => apply all_calls_bind
      | |- all_calls _ (if ?b then _ else _) => destruct b
      | |- all_calls _ (match ?x with inl _ => _ | inr _ => _ end) => destruct x
      | |- all_calls _ (match ?x with Some _ => _ | None => _ end) => destruct x
      | |- _ /\ _ => split
      | |- exists _, _ => eexists
      | |- _ = _ => reflexivity
      end
    | progress (unfold destructure_or, destructure, dot)
    | progress (cbn [all_calls provider_call_shape await emit server_error]) ].

Lemma route_call_shapes env req : all_calls (provider_call_shape env req) (route env req).
Proof.
  apply route_cases; intros;
    unfold health, test_cors, create_payment_intent, create_subscription, subscription_reply,
      create_customer, get_customer, cancel_subscription, webhooks_stripe, dispatch_event,
      not_found;
    shape_calls.
Qed.

(** X17.  Whatever the request, every call the application makes to the
    provider has the shape [server.js] gives it: a payment intent is
    created with an [amount] that went through [Math.round] and with
    automatic payment methods enabled; a subscription is created with
    [payment_behavior: 'default_incomplete'] and with
    [latest_invoice.payment_intent] expanded, so that a client secret can
    be read from the answer; a customer search asks for one customer at
    most; and a webhook verification is given this request's body and
    [stripe-signature] header together with the configured secret. *)
Theorem provider_call_shapes env st req stripe past :
  List.Forall (provider_call_shape env req) (calls (run stripe past (snd (app env st req)))).
Proof.
  apply all_calls_run. apply app_cases; intros; try exact I.
  apply all_calls_try_catch; [apply route_call_shapes|].
  intros e. exact I.
Qed.

(* ================================================================== *)
(** * What the 400 and 404 answers mean *)




(** X19.  The customer lookup reports "not found" only for an empty
    result.  Whenever the handler answers 404, the provider has resolved
    the search and the [length] of the [data] it returned is the number 0;
    a provider failure or an answer without [data] is answered 500, never
    404. *)
Theorem customer_not_found_only_when_empty env stripe past req response :
  let c := customers_list (JObj [("email", lookup_field "email" (params req));
                                 ("limit", JNum 1%float)]) in
  let r := run stripe past (get_customer env req) in
  result r = inr response ->
  status response = 404 ->
  exists customers,
    stripe past c = inr customers /\
    nullish customers = false /\
    nullish (member customers "data") = false /\
    strict_equals_number (member (member customers "data") "length") 0%float = true.
Proof.
  intros c r. subst r. unfold get_customer, member. eval_prog.
  rewrite (get_prop_value env Destructure (JObj (params req)) _ eq_refl).
  cbn [prop_value key_string]. eval_prog. fold c.
  destruct (stripe past c) as [e|customers]; eval_prog.
  { intros Hr Hs. injection Hr as <-. discriminate Hs. }
  destruct (nullish customers) eqn:Hcustomers.
  { rewrite (get_prop_nullish env Read customers _ Hcustomers). eval_prog.
    intros Hr Hs. injection Hr as <-. discriminate Hs. }
  read_from customers Hcustomers.
  destruct (nullish (prop_value customers (Named "data"))) eqn:Hdata.
  { rewrite (get_prop_nullish env Read _ _ Hdata). eval_prog.
    intros Hr Hs. injection Hr as <-. discriminate Hs. }
  rewrite (get_prop_value env Read _ (Named "length") Hdata). eval_prog.
  destruct (strict_equals_number _ _) eqn:Hlength; eval_prog.
  { intros _ _. exists customers. auto. }
  read_from (prop_value customers (Named "data")) Hdata.
  destruct_reads; intros Hr Hs; injection Hr as <-; discriminate Hs.
Qed.

Lemma customer_not_found_only_when_empty_witness :
  let req := mkRequest GET "/api/customer/nobody@example.com" "198.51.100.1" 0 []
               [("email", JStr "nobody@example.com")] JUndefined in
  let stripe : Stripe := fun _ _ => inr (JObj [("data", JArr [])]) in
  result (run stripe [] (get_customer Examples.env0 req))
  = inr (error_answer 404 "Customer not found") /\
  exists customers,
    stripe [] (customers_list (JObj [("email", JStr "nobody@example.com");
                                     ("limit", JNum 1%float)])) = inr customers /\
    nullish customers = false /\
    nullish (member customers "data") = false /\
    strict_equals_number (member (member customers "data") "length") 0%float = true.
Proof.
  intros req stripe. split; [reflexivity|].
  exact (customer_not_found_only_when_empty Examples.env0 stripe [] req
           (error_answer 404 "Customer not found") eq_refl eq_refl).
Defined.
